(** * Email generator: name extraction, address synthesis and validation

    A shallow embedding of [app.py]: the syntax validator
    ([validate_syntax]), the MX checker ([validate_mx]), the classifier
    ([validate_email]), the collection of search results
    ([scrape_profiles]) with its search requests, the column
    computations of the main action and the guards of the button handler.

    Python [str] values are modelled as lists of characters, a character
    being a code point below 256 ([ascii]).  [str.lower] and the
    white space of [str.strip] are Python's on that range. *)

From Stdlib Require Import List Bool Arith Lia ZArith NArith.
From Stdlib Require Import Ascii String.
Import ListNotations.

Set Implicit Arguments.

Abbreviation str := (list ascii).

(** A Python literal, written as a Rocq string. *)
Notation "'py' x" := (list_ascii_of_string x) (at level 9, x at level 0, only parsing).

(** ** Python string primitives *)
Module Py.

Definition code (c : ascii) : N := N_of_ascii c.

Definition in_range (lo hi c : ascii) : bool :=
  ((code lo <=? code c) && (code c <=? code hi))%N.

(** [str.isspace] on one character: TAB..CR, FS..US, space, NEL, NBSP. *)
Definition isspace (c : ascii) : bool :=
  let n := code c in
  (((9 <=? n) && (n <=? 13)) || ((28 <=? n) && (n <=? 31))
   || (n =? 32) || (n =? 133) || (n =? 160))%N.

(** [str.lower] on one character: A..Z and the Latin-1 capitals
    (U+00C0..U+00DE without the multiplication sign) move up by 32. *)
Definition lower_char (c : ascii) : ascii :=
  let n := code c in
  if (((65 <=? n) && (n <=? 90))
      || ((192 <=? n) && (n <=? 222) && negb (n =? 215)))%N
  then ascii_of_N (n + 32) else c.

Definition lower (s : str) : str := map lower_char s.

(** [s.lstrip()], [s.rstrip()], [s.strip()]. *)
Fixpoint lstrip (s : str) : str :=
  match s with
  | c :: s' => if isspace c then lstrip s' else s
  | [] => []
  end.

Definition rstrip (s : str) : str := rev (lstrip (rev s)).

Definition strip (s : str) : str := rstrip (lstrip s).

(** [s.split(sep)] for a separator of one character: the text up to the
    first separator, and the pieces of what follows it. *)
Fixpoint split_pieces (sep : ascii) (s : str) : str * list str :=
  match s with
  | [] => ([], [])
  | c :: s' =>
      let (piece, pieces) := split_pieces sep s' in
      if Ascii.eqb c sep then ([], piece :: pieces) else (c :: piece, pieces)
  end.

Definition split (sep : ascii) (s : str) : list str :=
  let (piece, pieces) := split_pieces sep s in piece :: pieces.

(** [sub in s] for a substring of one character. *)
Definition contains (c : ascii) (s : str) : bool := existsb (Ascii.eqb c) s.

(** [s.count(c)]. *)
Definition count (c : ascii) (s : str) : nat :=
  List.length (filter (Ascii.eqb c) s).

End Py.

(** ** The regular expression of [validate_syntax]

    The pattern is kept in the form [sre_parse] gives it: a sequence of
    operations, each an anchor, a literal, a character set or a greedy
    repetition of a character set. *)
Module Re.

Inductive set_item : Type :=
| RANGE (lo hi : ascii)
| CHAR (c : ascii).

Inductive op : Type :=
| AT_BEGINNING
| AT_END
| LITERAL (c : ascii)
| IN (cs : list set_item)
| MAX_REPEAT (lo : nat) (hi : option nat) (cs : list set_item).

Definition item_has (c : ascii) (i : set_item) : bool :=
  match i with
  | RANGE lo hi => Py.in_range lo hi c
  | CHAR x => Ascii.eqb c x
  end.

Definition in_set (cs : list set_item) (c : ascii) : bool :=
  existsb (item_has c) cs.

(** [$] without MULTILINE: at the end of the string, or just before a
    newline that is the last character. *)
Definition at_end (s : str) : bool :=
  match s with
  | [] => true
  | [c] => Ascii.eqb c "010"%char
  | _ => false
  end.

(** Greedy repetition with backtracking: take one more character while
    the set and the upper bound allow it, and fall back to the
    continuation [k] once at least [lo] characters were taken. *)
Fixpoint max_repeat (cs : ascii -> bool) (lo : nat) (hi : option nat)
    (k : nat -> str -> bool) (pos : nat) (s : str) : bool :=
  let stop := (lo =? 0) && k pos s in
  match s with
  | c :: s' =>
      if cs c && negb (match hi with Some 0 => true | _ => false end)
      then max_repeat cs (pred lo) (option_map pred hi) k (S pos) s' || stop
      else stop
  | [] => stop
  end.

(** Does the operation sequence match at position [pos], the rest of the
    subject being [s]? *)
Fixpoint match_ops (ops : list op) (pos : nat) (s : str) {struct ops} : bool :=
  match ops with
  | [] => true
  | AT_BEGINNING :: rest => (pos =? 0) && match_ops rest pos s
  | AT_END :: rest => at_end s && match_ops rest pos s
  | LITERAL c :: rest =>
      match s with
      | x :: s' => Ascii.eqb x c && match_ops rest (S pos) s'
      | [] => false
      end
  | IN cs :: rest =>
      match s with
      | x :: s' => in_set cs x && match_ops rest (S pos) s'
      | [] => false
      end
  | MAX_REPEAT lo hi cs :: rest =>
      max_repeat (in_set cs) lo hi (match_ops rest) pos s
  end.

(** [re.match(pattern, s) is not None]. *)
Definition re_match (pattern : list op) (s : str) : bool :=
  match_ops pattern 0 s.

End Re.

(** ** Email validation functions *)

Import Re.

(** [[a-zA-Z0-9._%+-]] *)
Definition local_set : list set_item :=
  [RANGE "a" "z"; RANGE "A" "Z"; RANGE "0" "9";
   CHAR "."; CHAR "_"; CHAR "%"; CHAR "+"; CHAR "-"]%char.

(** [[a-zA-Z0-9.-]] *)
Definition domain_set : list set_item :=
  [RANGE "a" "z"; RANGE "A" "Z"; RANGE "0" "9"; CHAR "."; CHAR "-"]%char.

(** [[a-zA-Z]] *)
Definition letter_set : list set_item :=
  [RANGE "a" "z"; RANGE "A" "Z"]%char.

(** [^[a-zA-Z0-9._%+-]+@[a-zA-Z0-9.-]+\.[a-zA-Z]{2,}$] *)
Definition pattern : list op :=
  [AT_BEGINNING;
   MAX_REPEAT 1 None local_set;
   LITERAL "@"%char;
   MAX_REPEAT 1 None domain_set;
   LITERAL "."%char;
   MAX_REPEAT 2 None letter_set;
   AT_END].

Definition validate_syntax (email : str) : bool := re_match pattern email.

(** ** Exceptions and effects

    [validate_mx] asks the resolver, which may answer or raise, and whose
    answers may change from one call to the next.  Computations thread a
    state holding the resolver's world and the log of the domains that
    were queried; a result is a value or a raised exception. *)

Inductive exn : Type :=
| IndexError
| TypeError
| StopException          (* raised by [st.stop()] *)
| NXDOMAIN
| NoAnswer
| Timeout
| NoNameservers
| BadName                (* the domain is not a well-formed DNS name *)
| OtherError (what : str).

Inductive exc (A : Type) : Type :=
| Ok (a : A)
| Exn (e : exn).

Arguments Ok {A} a.
Arguments Exn {A} e.

(** An MX record of an answer. *)
Record MX : Type := { preference : nat; exchange : str }.

Inductive Status : Type := InvalidSyntax | ValidDomain | NoMXRecord.
Inductive Confidence : Type := Low | Medium | High.

(** The strings the code returns for the two labels. *)
Definition status_label (s : Status) : str :=
  match s with
  | InvalidSyntax => py "Invalid Syntax"
  | ValidDomain => py "Valid Domain"
  | NoMXRecord => py "No MX Record"
  end.

Definition confidence_label (c : Confidence) : str :=
  match c with
  | Low => py "Low"
  | Medium => py "Medium"
  | High => py "High"
  end.

Section Resolver.

Variable World : Type.

(** [dns.resolver.resolve(domain, "MX")]: the records of the answer or the
    exception raised, and the world after the query. *)
Variable resolve : str -> World -> exc (list MX) * World.

Record State : Type := { world : World; queries : list str }.

Definition M (A : Type) : Type := State -> exc A * State.

Definition ret {A} (a : A) : M A := fun st => (Ok a, st).

Definition raise {A} (e : exn) : M A := fun st => (Exn e, st).

Definition bind {A B} (m : M A) (f : A -> M B) : M B :=
  fun st =>
    match m st with
    | (Ok a, st') => f a st'
    | (Exn e, st') => (Exn e, st')
    end.

(** [try: body  except: handler] with a bare [except]. *)
Definition try_except {A} (body : M A) (handler : exn -> M A) : M A :=
  fun st =>
    match body st with
    | (Ok a, st') => (Ok a, st')
    | (Exn e, st') => handler e st'
    end.

Notation "x <- m ;; k" := (bind m (fun x => k))
  (at level 61, m at next level, right associativity).

Fixpoint mapM {A B} (f : A -> M B) (l : list A) : M (list B) :=
  match l with
  | [] => ret []
  | a :: l' => b <- f a ;; bs <- mapM f l' ;; ret (b :: bs)
  end.

Definition dns_resolve (domain : str) : M (list MX) :=
  fun st =>
    let (answer, w) := resolve domain (world st) in
    (answer, {| world := w; queries := queries st ++ [domain] |}).

(** The state after one query of [domain]. *)
Definition queried (domain : str) (st : State) : State :=
  {| world := snd (resolve domain (world st));
     queries := queries st ++ [domain] |}.

(** [l[i]] for a non-negative index. *)
Definition index {A} (l : list A) (i : nat) : M A :=
  match nth_error l i with
  | Some a => ret a
  | None => raise IndexError
  end.

Definition validate_mx (domain : str) : M bool :=
  try_except
    (records <- dns_resolve domain ;;
     ret (0 <? List.length records))
    (fun _ => ret false).

Definition validate_email (email : str) : M (Status * Confidence) :=
  if negb (validate_syntax email) then ret (InvalidSyntax, Low)
  else
    domain <- index (Py.split "@" email) 1 ;;
    valid <- validate_mx domain ;;
    if valid then ret (ValidDomain, High) else ret (NoMXRecord, Medium).

End Resolver.

Arguments ret {World A} a.
Arguments raise {World A} e.
Arguments bind {World A B} m f.
Arguments try_except {World A} body handler.
Arguments index {World A} l i.

(** ** Scraper

    The search itself is outside the model: [scrape_profiles] is given
    the organic results of each page it would have fetched. *)

(** One organic result; [r.get("title")] and [r.get("link")] may be
    [None]. *)
Record Result : Type := { title : option str; link : option str }.

(** A row of the data frame built from the appended dictionaries. *)
Record Row : Type := { Title : str; Link : option str }.

Fixpoint str_eqb (a b : str) : bool :=
  match a, b with
  | [], [] => true
  | x :: a', y :: b' => Ascii.eqb x y && str_eqb a' b'
  | _, _ => false
  end.

Definition link_eqb (a b : option str) : bool :=
  match a, b with
  | None, None => true
  | Some x, Some y => str_eqb x y
  | _, _ => false
  end.

Definition row_eqb (a b : Row) : bool :=
  str_eqb (Title a) (Title b) && link_eqb (Link a) (Link b).

(** Truth value of a string: non-empty. *)
Definition truthy (s : str) : bool := negb (Nat.eqb (List.length s) 0).

(** [for r in results.get("organic_results", []): ...], with
    [if title and "-" in title] inside; a [None] title is falsy. *)
Fixpoint organic_loop (rows : list Row) (results : list Result) : list Row :=
  match results with
  | [] => rows
  | r :: rest =>
      match title r with
      | Some t =>
          if truthy t && Py.contains "-" t
          then organic_loop (rows ++ [{| Title := t; Link := link r |}]) rest
          else organic_loop rows rest
      | None => organic_loop rows rest
      end
  end.

(** [for page in range(pages): ...] *)
Fixpoint page_loop (rows : list Row) (pages : list (list Result)) : list Row :=
  match pages with
  | [] => rows
  | results :: rest => page_loop (organic_loop rows results) rest
  end.

(** [DataFrame.drop_duplicates()]: a row equal to an earlier one is
    dropped, the others keep their order. *)
Fixpoint drop_from (seen : list Row) (rows : list Row) : list Row :=
  match rows with
  | [] => []
  | r :: rest =>
      if existsb (row_eqb r) seen then drop_from seen rest
      else r :: drop_from (r :: seen) rest
  end.

Definition drop_duplicates (rows : list Row) : list Row := drop_from [] rows.

Definition scrape_profiles (pages : list (list Result)) : list Row :=
  drop_duplicates (page_loop [] pages).

(** ** Columns of the main action

    A cell of a string column is a string or missing (NaN). *)

Definition cell : Type := option str.

(** [.str.split(sep)] *)
Definition str_split (sep : ascii) (c : cell) : option (list str) :=
  option_map (Py.split sep) c.

(** [.str[i]]: the element at index [i], counted from the end when [i] is
    negative, and missing when out of range. *)
Definition str_get (i : Z) (c : option (list str)) : cell :=
  match c with
  | Some l =>
      let n := Z.of_nat (List.length l) in
      if ((- n <=? i) && (i <? n))%Z
      then nth_error l (Z.to_nat (if (i <? 0)%Z then n + i else i)%Z)
      else None
  | None => None
  end.

(** [.str.strip()], [.str.lower()] *)
Definition str_strip (c : cell) : cell := option_map Py.strip c.
Definition str_lower (c : cell) : cell := option_map Py.lower c.

(** [column + text] and [column + column] *)
Definition add_str (c : cell) (s : str) : cell :=
  option_map (fun x => x ++ s) c.

Definition add_col (a b : cell) : cell :=
  match a, b with
  | Some x, Some y => Some (x ++ y)
  | _, _ => None
  end.

(** The options of the separator select box. *)
Inductive Separator : Type := Dot | Underscore.

Definition separator_str (s : Separator) : str :=
  match s with
  | Dot => py "."
  | Underscore => py "_"
  end.

Definition full_name_of (t : str) : cell :=
  str_strip (str_get 0 (str_split "-" (Some t))).

Definition position_of (t : str) : cell :=
  str_strip (str_get 1 (str_split "-" (Some t))).

Definition first_name_of (full_name : cell) : cell :=
  str_get 0 (str_split " " full_name).

Definition last_name_of (full_name : cell) : cell :=
  str_get (-1) (str_split " " full_name).

Definition email_of (first_name last_name : cell)
    (separator : Separator) (email_suffix : str) : cell :=
  add_str
    (add_col (add_str (str_lower first_name) (separator_str separator))
             (str_lower last_name))
    (Py.lower email_suffix).

(** The columns of a row before validation. *)
Record Columns : Type := {
  source : Row;
  full_name : cell;
  position : cell;
  first_name : cell;
  last_name : cell;
  email : cell
}.

Definition columns (separator : Separator) (email_suffix : str)
    (r : Row) : Columns :=
  let full := full_name_of (Title r) in
  {| source := r;
     full_name := full;
     position := position_of (Title r);
     first_name := first_name_of full;
     last_name := last_name_of full;
     email := email_of (first_name_of full) (last_name_of full)
                separator email_suffix |}.

(** A row of the final table. *)
Record ResultRow : Type := {
  cols : Columns;
  validation_status : Status;
  confidence : Confidence
}.

Definition with_verdict (cv : Columns * (Status * Confidence)) : ResultRow :=
  {| cols := fst cv;
     validation_status := fst (snd cv);
     confidence := snd (snd cv) |}.

Section MainAction.

Variable World : Type.
Variable resolve : str -> World -> exc (list MX) * World.

(** [df["email"].apply(validate_email)] on one cell: a missing cell is a
    float, on which [re.match] raises. *)
Definition apply_validate_email (c : cell) : M World (Status * Confidence) :=
  match c with
  | Some e => validate_email resolve e
  | None => raise TypeError
  end.

(** The body of the button handler, from the scrape to the validated
    table; the input guards before it are taken as passed. *)
Definition main_action (separator : Separator) (email_suffix : str)
    (pages : list (list Result)) : M World (list ResultRow) :=
  let df := scrape_profiles pages in
  match df with
  | [] => raise StopException
  | _ =>
      let table := map (columns separator email_suffix) df in
      bind (mapM apply_validate_email (map email table))
        (fun validation_results =>
           ret (map with_verdict (combine table validation_results)))
  end.

End MainAction.

(** ** Scenarios *)

Definition no_dns : str -> unit -> exc (list MX) * unit :=
  fun _ w => (Exn NXDOMAIN, w).

Definition acme_dns : str -> unit -> exc (list MX) * unit :=
  fun d w =>
    if str_eqb d (py "acme.com")
    then (Ok [{| preference := 10; exchange := py "mx.acme.com" |}], w)
    else (Exn NXDOMAIN, w).

Definition st0 : State unit := {| world := tt; queries := [] |}.

Definition jane : Result :=
  {| title := Some (py "Jane Doe - HR Manager - Acme | LinkedIn");
     link := Some (py "https://linkedin.com/in/jane") |}.

Definition joe : Result :=
  {| title := Some (py "Joe Bloggs - Recruiter");
     link := Some (py "https://linkedin.com/in/joe") |}.

(** The table and the final state of a run on two results, with the
    suffix [@acme.com], and of a run with the suffix [acme.com]. *)
Definition acme_rows : list ResultRow :=
  match fst (main_action acme_dns Dot (py "@acme.com") [[jane; joe]] st0) with
  | Ok rows => rows
  | Exn _ => []
  end.

Definition acme_state : State unit :=
  snd (main_action acme_dns Dot (py "@acme.com") [[jane; joe]] st0).

Definition no_at_rows : list ResultRow :=
  match fst (main_action acme_dns Dot (py "acme.com") [[jane; joe]] st0) with
  | Ok rows => rows
  | Exn _ => []
  end.

(** ** The shape of an address, in the words of the specification *)

Definition is_letter (c : ascii) : bool :=
  Py.in_range "a" "z" c || Py.in_range "A" "Z" c.

Definition is_digit (c : ascii) : bool := Py.in_range "0" "9" c.

Definition one_of (cs : str) (c : ascii) : bool := existsb (Ascii.eqb c) cs.

(** letters, digits, [.], [_], [%], [+], [-] *)
Definition local_char (c : ascii) : bool :=
  is_letter c || is_digit c || one_of (py "._%+-") c.

(** letters, digits, [.], [-] *)
Definition domain_char (c : ascii) : bool :=
  is_letter c || is_digit c || one_of (py ".-") c.

(** One or more local characters, [@], one or more domain characters,
    [.], two or more letters: nothing before, nothing after. *)
Definition well_formed (s : str) : Prop :=
  exists loc dom tld,
    s = loc ++ "@"%char :: dom ++ "."%char :: tld
    /\ 1 <= List.length loc /\ forallb local_char loc = true
    /\ 1 <= List.length dom /\ forallb domain_char dom = true
    /\ 2 <= List.length tld /\ forallb is_letter tld = true.

Definition newline : ascii := "010"%char.

(** The text before the first [c], and the text after it. *)
Fixpoint before_first (c : ascii) (s : str) : str :=
  match s with
  | [] => []
  | x :: s' => if Ascii.eqb x c then [] else x :: before_first c s'
  end.

Fixpoint after_first (c : ascii) (s : str) : str :=
  match s with
  | [] => []
  | x :: s' => if Ascii.eqb x c then s' else after_first c s'
  end.

(** Is [n] within the upper bound of a repetition? *)
Definition within (hi : option nat) (n : nat) : Prop :=
  match hi with
  | Some h => n <= h
  | None => True
  end.

(** The confidence that goes with a status. *)
Definition confidence_of (s : Status) : Confidence :=
  match s with
  | InvalidSyntax => Low
  | ValidDomain => High
  | NoMXRecord => Medium
  end.

(** The search result a row was built from. *)
Definition raw (r : Row) : Result := {| title := Some (Title r); link := Link r |}.

Definition has_hyphen (t : option str) : bool :=
  match t with
  | Some s => Py.contains "-" s
  | None => false
  end.

(** The rows one result appends. *)
Definition keep_list (r : Result) : list Row :=
  match title r with
  | Some t =>
      if truthy t && Py.contains "-" t
      then [{| Title := t; Link := link r |}] else []
  | None => []
  end.

(** In [l], the first [a] comes before the first [b]. *)
Definition first_before {A} (a b : A) (l : list A) : Prop :=
  exists l1 l2 l3,
    l = l1 ++ a :: l2 ++ b :: l3
    /\ ~ In a l1 /\ ~ In b l1 /\ ~ In b l2 /\ a <> b.

(** ** The search requests and the input guards *)

Module Serp.

(** The parameters of one search request. *)
Record Params : Type := {
  engine : str;
  q : str;
  start : nat;
  num : nat;
  api_key : option str
}.

Definition dq : ascii := "034"%char.

(** The query built from the company and the location. *)
Definition query (company location : str) : str :=
  py "site:linkedin.com/in (" ++ company ++ py ") "
  ++ py "(" ++ dq :: py "HR" ++ dq :: py " OR " ++ dq :: py "Recruiter"
  ++ dq :: py " OR " ++ dq :: py "Talent" ++ dq :: py " OR "
  ++ dq :: py "Hiring" ++ dq :: py " OR " ++ dq :: py "Manager"
  ++ dq :: py ") "
  ++ py "(" ++ dq :: location ++ dq :: py ")".

(** [params = {...}] for one [page]. *)
Definition params (company location : str) (key : option str) (page : nat)
    : Params :=
  {| engine := py "google";
     q := query company location;
     start := page * 10;
     num := 10;
     api_key := key |}.

(** The requests of [for page in range(pages)], in order. *)
Definition requests (company location : str) (key : option str) (pages : nat)
    : list Params :=
  map (params company location key) (seq 0 pages).

(** Does the request ask for the result at rank [k]? *)
Definition asks (p : Params) (k : nat) : Prop :=
  start p <= k < start p + num p.

End Serp.

Module Form.

(** The values of the input widgets and of the environment variable. *)
Record inputs : Type := {
  company_name : str;
  email_suffix : str;
  separator : Separator;
  location : str;
  uploaded_excel : option str;
  SERPAPI_KEY : option str
}.

(** [all([company_name, email_suffix, location, uploaded_excel])] *)
Definition all_inputs (f : inputs) : bool :=
  truthy (company_name f) && truthy (email_suffix f) && truthy (location f)
  && match uploaded_excel f with Some _ => true | None => false end.

(** Truth value of [SERPAPI_KEY]: set and non-empty. *)
Definition key_set (f : inputs) : bool :=
  match SERPAPI_KEY f with Some k => truthy k | None => false end.

End Form.

(** The six columns of the table that is shown, in their order:
    first_name, last_name, email, validation_status, confidence,
    position. *)
Definition shown (r : ResultRow)
    : cell * cell * cell * Status * Confidence * cell :=
  (first_name (cols r), last_name (cols r), email (cols r),
   validation_status r, confidence r, position (cols r)).

(** What the handler puts on the page.  The label of the download button
    is left out: it holds a character outside the modelled range. *)
Inductive message : Type :=
| st_error (text : str)
| st_warning (text : str)
| st_download_button (data file_name mime : str)
| st_success (text : str)
| st_metric (label : str) (value : nat)
| st_dataframe (table : list (cell * cell * cell * Status * Confidence * cell)).

Section Handler.

Variable World : Type.
Variable resolve : str -> World -> exc (list MX) * World.

(** The write of the table into the uploaded workbook, from the
    temporary file to the re-opened file: given the bytes of the upload,
    the sheet name and the table, the bytes of the updated workbook, or
    the exception that one of these calls raised. *)
Variable write_workbook : str -> str -> list ResultRow -> exc str.

(** The button handler, from its guards to the table on the page: what
    is shown, the exception if one is raised, and the state of the
    resolver.  [fetched] is the outcome of the searches of
    [scrape_profiles]: the results of the pages, or the exception a
    search raised.  The spinner and the progress bar are not modelled. *)
Definition button_handler (f : Form.inputs)
    (fetched : exc (list (list Result))) (st : State World)
    : list message * (exc unit * State World) :=
  if negb (Form.all_inputs f)
  then ([st_error (py "All inputs are required")], (Exn StopException, st))
  else if negb (Form.key_set f)
  then ([st_error (py "SERPAPI_KEY not set")], (Exn StopException, st))
  else
    match fetched with
    | Exn e => ([], (Exn e, st))
    | Ok pages =>
        match scrape_profiles pages with
        | [] => ([st_warning (py "No profiles found")], (Exn StopException, st))
        | _ =>
            match main_action resolve (Form.separator f) (Form.email_suffix f)
                    pages st with
            | (Exn e, st') => ([], (Exn e, st'))
            | (Ok df, st') =>
                match
                  match Form.uploaded_excel f with
                  | Some upload => write_workbook upload (Form.company_name f) df
                  | None => Exn (OtherError (py "AttributeError"))
                  end
                with
                | Exn e => ([], (Exn e, st'))
                | Ok data =>
                    ([st_download_button data (py "companies.xlsx")
                        (py "application/vnd.openxmlformats-officedocument.spreadsheetml.sheet");
                      st_success (py "Saved validated emails to sheet: "
                                  ++ Form.company_name f);
                      st_metric (py "Emails Generated") (List.length df);
                      st_dataframe (map shown df)],
                     (Ok tt, st'))
                end
            end
        end
    end.

(** The state after the queries of [domains], one after the other. *)
Definition run_queries (domains : list str) (st : State World) : State World :=
  fold_left (fun s d => queried resolve d s) domains st.

End Handler.

(** The address of a row (the empty string for a missing cell). *)
Definition address (separator : Separator) (email_suffix : str) (r : Row) : str :=
  match email (columns separator email_suffix r) with
  | Some e => e
  | None => []
  end.

Definition is_invalid (s : Status) : bool :=
  match s with
  | InvalidSyntax => true
  | _ => false
  end.

(** A verdict that fits the address: InvalidSyntax exactly for a rejected
    address, and the confidence of its status. *)
Definition verdict_for (e : str) (v : Status * Confidence) : Prop :=
  is_invalid (fst v) = negb (validate_syntax e)
  /\ snd v = confidence_of (fst v).

(** ** Lemmas on the string primitives *)

Lemma split_pieces_app sep a b :
  ~ In sep a ->
  Py.split_pieces sep (a ++ sep :: b) = (a, Py.split sep b).
Proof.
  induction a as [|x a IH]; intros Hn; simpl.
  - unfold Py.split. destruct (Py.split_pieces sep b) as [p ps].
    now rewrite Ascii.eqb_refl.
  - rewrite IH by (intros H; apply Hn; now right).
    destruct (Ascii.eqb_spec x sep) as [->|_]; [|reflexivity].
    exfalso; apply Hn; now left.
Qed.

Lemma split_app sep a b :
  ~ In sep a -> Py.split sep (a ++ sep :: b) = a :: Py.split sep b.
Proof.
  intros Hn. unfold Py.split at 1. now rewrite split_pieces_app.
Qed.

Lemma split_pieces_none sep a :
  ~ In sep a -> Py.split_pieces sep a = (a, []).
Proof.
  induction a as [|x a IH]; intros Hn; simpl; [reflexivity|].
  rewrite IH by (intros H; apply Hn; now right).
  destruct (Ascii.eqb_spec x sep) as [->|_]; [|reflexivity].
  exfalso; apply Hn; now left.
Qed.

Lemma split_none sep a : ~ In sep a -> Py.split sep a = [a].
Proof.
  intros Hn. unfold Py.split. now rewrite split_pieces_none.
Qed.

Lemma count_app c a b : Py.count c (a ++ b) = Py.count c a + Py.count c b.
Proof.
  unfold Py.count. now rewrite filter_app, length_app.
Qed.

Lemma count_none c a : ~ In c a <-> Py.count c a = 0.
Proof.
  unfold Py.count. induction a as [|x a IH]; simpl; [tauto|].
  destruct (Ascii.eqb_spec c x) as [->|Hne]; simpl.
  - split; [intros H; exfalso; apply H; now left | discriminate].
  - rewrite <- IH. split; intros H; [|intros [E|E]]; auto.
Qed.

Lemma contains_In c s : Py.contains c s = true <-> In c s.
Proof.
  unfold Py.contains. rewrite existsb_exists. split.
  - intros [x [Hx E]]. apply Ascii.eqb_eq in E. now subst.
  - intros H. exists c. split; [assumption | apply Ascii.eqb_refl].
Qed.


Lemma before_after_first c s :
  In c s ->
  s = before_first c s ++ c :: after_first c s /\ ~ In c (before_first c s).
Proof.
  induction s as [|x s IH]; simpl; [tauto|].
  intros H. destruct (Ascii.eqb_spec x c) as [->|Hne].
  - split; [reflexivity | simpl; tauto].
  - destruct IH as [E Hn]; [destruct H; [contradiction | assumption]|].
    split; [simpl; now rewrite <- E|].
    simpl. intros [F|F]; [contradiction | now apply Hn].
Qed.

Lemma first_unique c a b :
  ~ In c a -> before_first c (a ++ c :: b) = a /\ after_first c (a ++ c :: b) = b.
Proof.
  induction a as [|x a IH]; simpl; intros Hn.
  - now rewrite Ascii.eqb_refl.
  - destruct (Ascii.eqb_spec x c) as [->|_]; [exfalso; apply Hn; now left|].
    destruct IH as [E1 E2]; [intros H; apply Hn; now right|].
    now rewrite E1, E2.
Qed.

Lemma before_first_none c a : ~ In c a -> before_first c a = a.
Proof.
  induction a as [|x a IH]; simpl; intros Hn; [reflexivity|].
  destruct (Ascii.eqb_spec x c) as [->|_]; [exfalso; apply Hn; now left|].
  rewrite IH; [reflexivity | intros H; apply Hn; now right].
Qed.

Lemma forallb_not_In (f : ascii -> bool) c s :
  forallb f s = true -> f c = false -> ~ In c s.
Proof.
  intros Hf Hc Hin. rewrite forallb_forall in Hf.
  apply Hf in Hin. congruence.
Qed.

(** ** The matcher against the shape *)

Lemma max_repeat_spec cs k s :
  forall lo hi pos,
    max_repeat cs lo hi k pos s = true <->
    exists a b,
      s = a ++ b /\ lo <= List.length a /\ within hi (List.length a)
      /\ forallb cs a = true /\ k (pos + List.length a) b = true.
Proof.
  induction s as [|c s IH]; intros lo hi pos.
  - simpl. rewrite andb_true_iff, Nat.eqb_eq. split.
    + intros [-> Hk]. exists [], []. simpl. rewrite Nat.add_0_r.
      repeat split; auto. destruct hi; simpl; lia.
    + intros (a & b & E & Hlo & _ & _ & Hk).
      symmetry in E. apply app_eq_nil in E as [-> ->].
      simpl in *. rewrite Nat.add_0_r in Hk. split; [lia | assumption].
  - assert (Hstop : (lo =? 0) && k pos (c :: s) = true ->
                    exists a b, c :: s = a ++ b /\ lo <= List.length a
                      /\ within hi (List.length a) /\ forallb cs a = true
                      /\ k (pos + List.length a) b = true).
    { rewrite andb_true_iff, Nat.eqb_eq. intros [-> Hk].
      exists [], (c :: s). simpl. rewrite Nat.add_0_r.
      repeat split; auto. destruct hi; simpl; lia. }
    assert (Hnil : forall b, lo <= 0 -> k (pos + 0) b = true -> c :: s = b ->
                   (lo =? 0) && k pos (c :: s) = true).
    { intros b Hlo Hk <-. rewrite Nat.add_0_r in Hk.
      rewrite andb_true_iff, Nat.eqb_eq. split; [lia | assumption]. }
    simpl.
    destruct (cs c) eqn:Hc; simpl.
    + destruct hi as [[|h]|]; simpl.
      * split; [exact Hstop|].
        intros (a & b & E & Hlo & Hhi & _ & Hk). simpl in Hhi.
        destruct a; [|simpl in Hhi; lia]. now apply (Hnil b).
      * rewrite orb_true_iff, IH. split.
        -- intros [(a & b & E & Hlo & Hhi & Hf & Hk) | H]; [|now apply Hstop].
           exists (c :: a), b. simpl in *. rewrite Hc, Hf, E.
           rewrite Nat.add_succ_r. repeat split; auto; lia.
        -- intros (a & b & E & Hlo & Hhi & Hf & Hk).
           destruct a as [|x a]; [right; now apply (Hnil b)|].
           left. simpl in *. injection E as -> ->.
           apply andb_true_iff in Hf as [_ Hf].
           exists a, b. rewrite Nat.add_succ_r in Hk.
           repeat split; auto; lia.
      * rewrite orb_true_iff, IH. split.
        -- intros [(a & b & E & Hlo & Hhi & Hf & Hk) | H]; [|now apply Hstop].
           exists (c :: a), b. simpl in *. rewrite Hc, Hf, E.
           rewrite Nat.add_succ_r. repeat split; auto; lia.
        -- intros (a & b & E & Hlo & Hhi & Hf & Hk).
           destruct a as [|x a]; [right; now apply (Hnil b)|].
           left. simpl in *. injection E as -> ->.
           apply andb_true_iff in Hf as [_ Hf].
           exists a, b. rewrite Nat.add_succ_r in Hk.
           repeat split; auto; lia.
    + split; [exact Hstop|].
      intros (a & b & E & Hlo & Hhi & Hf & Hk).
      destruct a as [|x a]; [now apply (Hnil b)|].
      simpl in *. injection E as -> ->. rewrite Hc in Hf. discriminate.
Qed.

Lemma at_end_spec s : at_end s = true <-> s = [] \/ s = [newline].
Proof.
  destruct s as [|c [|d s]]; simpl.
  - intuition.
  - unfold newline. destruct (Ascii.eqb_spec c "010") as [->|Hne].
    + intuition.
    + split; [discriminate|]. intros [H|H]; [discriminate|].
      injection H as ->. contradiction.
  - split; [discriminate|]. intros [H|H]; discriminate.
Qed.

Lemma local_set_spec c : in_set local_set c = local_char c.
Proof.
  unfold in_set, local_set, local_char, is_letter, is_digit, one_of. simpl.
  rewrite !orb_false_r. now rewrite !orb_assoc.
Qed.

Lemma domain_set_spec c : in_set domain_set c = domain_char c.
Proof.
  unfold in_set, domain_set, domain_char, is_letter, is_digit, one_of. simpl.
  rewrite !orb_false_r. now rewrite !orb_assoc.
Qed.

Lemma letter_set_spec c : in_set letter_set c = is_letter c.
Proof.
  unfold in_set, letter_set, is_letter. simpl. now rewrite orb_false_r.
Qed.

Lemma forallb_ext_eq (f g : ascii -> bool) s :
  (forall c, f c = g c) -> forallb f s = forallb g s.
Proof.
  intros H. induction s as [|x s IH]; simpl; [reflexivity|].
  now rewrite H, IH.
Qed.

(** What [validate_syntax] accepts: a well-formed address, or one
    followed by a single newline. *)
Lemma validate_syntax_iff s :
  validate_syntax s = true <->
  well_formed s \/ exists s', s = s' ++ [newline] /\ well_formed s'.
Proof.
  unfold validate_syntax, re_match, pattern.
  cbn [match_ops]. rewrite Nat.eqb_refl, andb_true_l.
  rewrite max_repeat_spec. split.
  - intros (loc & b & -> & Hl & _ & Hfl & Hk).
    destruct b as [|x b]; [discriminate|].
    apply andb_true_iff in Hk as [Hx Hk]. apply Ascii.eqb_eq in Hx. subst x.
    apply max_repeat_spec in Hk as (dom & b2 & -> & Hd & _ & Hfd & Hk).
    cbn [match_ops] in Hk.
    destruct b2 as [|y b2]; [discriminate|].
    apply andb_true_iff in Hk as [Hy Hk]. apply Ascii.eqb_eq in Hy. subst y.
    apply max_repeat_spec in Hk as (tld & e & -> & Ht & _ & Hft & Hk).
    cbn [match_ops] in Hk. rewrite andb_true_r in Hk.
    rewrite (forallb_ext_eq _ _ _ local_set_spec) in Hfl.
    rewrite (forallb_ext_eq _ _ _ domain_set_spec) in Hfd.
    rewrite (forallb_ext_eq _ _ _ letter_set_spec) in Hft.
    assert (W : well_formed (loc ++ "@"%char :: dom ++ "."%char :: tld))
      by (exists loc, dom, tld; repeat split; assumption).
    apply at_end_spec in Hk as [-> | ->].
    + left. now rewrite app_nil_r.
    + right. exists (loc ++ "@"%char :: dom ++ "."%char :: tld).
      split; [|exact W].
      rewrite <- !app_assoc. simpl. rewrite <- !app_assoc. reflexivity.
  - assert (G : forall e, at_end e = true ->
                forall w, well_formed w ->
                exists a b, w ++ e = a ++ b /\ 1 <= List.length a /\ within None (List.length a)
                  /\ forallb (in_set local_set) a = true
                  /\ match_ops [LITERAL "@"%char; MAX_REPEAT 1 None domain_set;
                                LITERAL "."%char; MAX_REPEAT 2 None letter_set; AT_END]
                       (0 + List.length a) b = true).
    { intros e He w (loc & dom & tld & -> & Hl & Hfl & Hd & Hfd & Ht & Hft).
      exists loc, ("@"%char :: dom ++ "."%char :: tld ++ e).
      rewrite (forallb_ext_eq _ _ _ local_set_spec).
      repeat split; auto.
      { rewrite <- !app_assoc. simpl. rewrite <- !app_assoc. reflexivity. }
      cbn [match_ops]. rewrite Ascii.eqb_refl, andb_true_l.
      apply max_repeat_spec.
      exists dom, ("."%char :: tld ++ e).
      rewrite (forallb_ext_eq _ _ _ domain_set_spec).
      repeat split; auto.
      cbn [match_ops]. rewrite Ascii.eqb_refl, andb_true_l.
      apply max_repeat_spec.
      exists tld, e. rewrite (forallb_ext_eq _ _ _ letter_set_spec).
      repeat split; auto.
      cbn [match_ops]. now rewrite He. }
    intros [W | (s' & -> & W)].
    + rewrite <- (app_nil_r s). now apply G.
    + apply G; [|assumption]. apply at_end_spec. now right.
Qed.

Lemma well_formed_last s :
  well_formed s -> exists s' c, s = s' ++ [c] /\ is_letter c = true.
Proof.
  intros (loc & dom & tld & -> & _ & _ & _ & _ & Ht & Hft).
  destruct (exists_last (l := tld)) as (t' & c & ->).
  { intros ->. simpl in Ht. lia. }
  exists (loc ++ "@"%char :: dom ++ "."%char :: t'), c. split.
  - rewrite <- !app_assoc. simpl. rewrite <- !app_assoc. reflexivity.
  - rewrite forallb_app in Hft. apply andb_true_iff in Hft as [_ Hc].
    simpl in Hc. now rewrite andb_true_r in Hc.
Qed.

Lemma well_formed_at s :
  well_formed s ->
  exists loc rest,
    s = loc ++ "@"%char :: rest /\ ~ In "@"%char loc /\ ~ In "@"%char rest
    /\ forall c, In c rest -> domain_char c = true.
Proof.
  intros (loc & dom & tld & -> & _ & Hfl & _ & Hfd & _ & Hft).
  exists loc, (dom ++ "."%char :: tld). split; [reflexivity|].
  split; [now apply (forallb_not_In _ _ _ Hfl)|].
  split.
  - rewrite in_app_iff. simpl. intros [H | [H | H]].
    + now apply (forallb_not_In _ _ _ Hfd) in H.
    + discriminate.
    + now apply (forallb_not_In _ _ _ Hft) in H.
  - intros c. rewrite in_app_iff. simpl.
    rewrite forallb_forall in Hfd, Hft.
    intros [H | [<- | H]]; [now apply Hfd | reflexivity|].
    apply Hft in H. unfold domain_char. now rewrite H.
Qed.

(** An accepted address has one [@], with no [@] on either side. *)
Lemma valid_at_split s :
  validate_syntax s = true ->
  exists loc rest,
    s = loc ++ "@"%char :: rest /\ ~ In "@"%char loc /\ ~ In "@"%char rest.
Proof.
  intros H. apply validate_syntax_iff in H as [W | (s' & -> & W)];
    apply well_formed_at in W as (loc & rest & -> & Hl & Hr & _).
  - now exists loc, rest.
  - exists loc, (rest ++ [newline]). rewrite <- app_assoc. simpl.
    repeat split; auto. rewrite in_app_iff. simpl.
    intros [F | [F | F]]; [now apply Hr | discriminate | assumption].
Qed.

Lemma valid_domain s :
  validate_syntax s = true ->
  Py.count "@" s = 1
  /\ s = before_first "@" s ++ "@"%char :: after_first "@" s
  /\ Py.split "@" s = [before_first "@" s; after_first "@" s].
Proof.
  intros H. apply valid_at_split in H as (loc & rest & -> & Hl & Hr).
  destruct (first_unique "@" loc rest Hl) as [-> ->].
  repeat split.
  - rewrite count_app. change (Py.count "@" ("@"%char :: rest))
      with (S (Py.count "@" rest)).
    apply count_none in Hl, Hr. lia.
  - now rewrite split_app, split_none.
Qed.

Lemma well_formed_accepted s : well_formed s -> validate_syntax s = true.
Proof. intros W. apply validate_syntax_iff. now left. Qed.

Lemma no_at_rejected s : ~ In "@"%char s -> validate_syntax s = false.
Proof.
  intros Hn. destruct (validate_syntax s) eqn:E; [|reflexivity].
  apply valid_at_split in E as (loc & rest & -> & _).
  exfalso. apply Hn. rewrite in_app_iff. right. now left.
Qed.

(** Without a final run of two or more letters after a dot (before the
    end or a last newline), an address is rejected. *)
Lemma no_tld_rejected s :
  (forall a t e, s = a ++ "."%char :: t ++ e -> 2 <= List.length t ->
                 forallb is_letter t = true -> e <> [] /\ e <> [newline]) ->
  validate_syntax s = false.
Proof.
  intros Hn. destruct (validate_syntax s) eqn:E; [|reflexivity]. exfalso.
  apply validate_syntax_iff in E as [W | (s' & -> & W)];
    destruct W as (loc & dom & tld & -> & _ & _ & _ & _ & Ht & Hft).
  - destruct (Hn (loc ++ "@"%char :: dom) tld []) as [F _]; auto.
    rewrite app_nil_r, <- app_assoc. reflexivity.
  - destruct (Hn (loc ++ "@"%char :: dom) tld [newline]) as [_ F]; auto.
    rewrite <- !app_assoc. simpl. rewrite <- !app_assoc. reflexivity.
Qed.

Example validate_syntax_ok :
  validate_syntax (py "a.b@c.com") = true.
Proof. reflexivity. Qed.

Example validate_syntax_ko :
  validate_syntax (py "not-an-email") = false.
Proof. reflexivity. Qed.

(** C5: [validate_syntax] accepts [a.b@c.com] followed by a newline, an
    address that does not have the stated shape: the accepted addresses
    are not exactly the well-formed ones. *)
Theorem validate_syntax_trailing_newline :
  validate_syntax (py "a.b@c.com" ++ [newline]) = true
  /\ ~ well_formed (py "a.b@c.com" ++ [newline]).
Proof.
  split; [reflexivity|].
  intros W. apply well_formed_last in W as (s' & c & E & Hc).
  apply (f_equal (@rev ascii)) in E. rewrite (rev_app_distr s') in E.
  cbn in E. injection E as <- _. discriminate.
Qed.

(** ** The MX checker and the classifier *)

Section Validation.

Variable World : Type.
Variable resolve : str -> World -> exc (list MX) * World.

Lemma validate_mx_run domain st :
  validate_mx resolve domain st =
  (Ok match fst (resolve domain (world st)) with
      | Ok records => 0 <? List.length records
      | Exn _ => false
      end,
   queried resolve domain st).
Proof.
  unfold validate_mx, try_except, bind, dns_resolve, queried, ret.
  destruct (resolve domain (world st)) as [[records | e] w]; reflexivity.
Qed.

(** C8: [validate_mx] always returns a boolean, whatever the resolver
    does: [True] exactly when the lookup answers with at least one
    record, [False] whenever the lookup raises, whichever the exception;
    no exception leaves it. *)
Theorem validate_mx_total (domain : str) (st : State World) :
  exists b,
    validate_mx resolve domain st = (Ok b, queried resolve domain st)
    /\ (b = true <->
        exists records,
          fst (resolve domain (world st)) = Ok records
          /\ 1 <= List.length records)
    /\ (forall e, fst (resolve domain (world st)) = Exn e -> b = false).
Proof.
  rewrite validate_mx_run.
  destruct (fst (resolve domain (world st))) as [records | e] eqn:E.
  - exists (0 <? List.length records). split; [reflexivity|]. split.
    + rewrite Nat.ltb_lt. split.
      * intros H. exists records. split; [reflexivity | lia].
      * intros (r & Hr & Hl). injection Hr as ->. lia.
    + intros e H. discriminate.
  - exists false. split; [reflexivity|]. split.
    + split; [discriminate|]. intros (r & Hr & _). discriminate.
    + reflexivity.
Qed.

Lemma validate_email_valid email st :
  validate_syntax email = true ->
  exists b,
    validate_mx resolve (after_first "@" email) st
      = (Ok b, queried resolve (after_first "@" email) st)
    /\ validate_email resolve email st
      = (Ok (if b then (ValidDomain, High) else (NoMXRecord, Medium)),
         queried resolve (after_first "@" email) st).
Proof.
  intros H. destruct (valid_domain _ H) as (_ & _ & Hs).
  pose proof (validate_mx_run (after_first "@" email) st) as Hb.
  remember (match fst (resolve (after_first "@" email) (world st)) with
            | Ok records => 0 <? List.length records
            | Exn _ => false
            end) as b eqn:Eb.
  clear Eb. exists b. split; [assumption|].
  unfold validate_email. rewrite H. simpl.
  unfold bind at 1. rewrite Hs. unfold index. simpl. unfold ret at 1.
  unfold bind. rewrite Hb. now destruct b.
Qed.

Lemma validate_email_invalid email st :
  validate_syntax email = false ->
  validate_email resolve email st = (Ok (InvalidSyntax, Low), st).
Proof.
  intros H. unfold validate_email. now rewrite H.
Qed.

(** C1: [validate_email] returns one of three pairs and raises nothing:
    (InvalidSyntax, Low) when [validate_syntax] fails; otherwise
    (ValidDomain, High) or (NoMXRecord, Medium) as [validate_mx] of the
    text after the [@] returns [True] or [False].  The confidence is
    determined by the status. *)
Theorem validate_email_verdict (email : str) (st : State World) :
  exists v st',
    validate_email resolve email st = (Ok v, st')
    /\ (validate_syntax email = false /\ v = (InvalidSyntax, Low) /\ st' = st
        \/ validate_syntax email = true
           /\ validate_mx resolve (after_first "@" email) st = (Ok true, st')
           /\ v = (ValidDomain, High)
        \/ validate_syntax email = true
           /\ validate_mx resolve (after_first "@" email) st = (Ok false, st')
           /\ v = (NoMXRecord, Medium))
    /\ snd v = confidence_of (fst v).
Proof.
  destruct (validate_syntax email) eqn:H.
  - destruct (validate_email_valid email st H) as (b & Hb & He).
    rewrite He, Hb. destruct b.
    + exists (ValidDomain, High), (queried resolve (after_first "@" email) st).
      split; [reflexivity|]. split; [|reflexivity]. right; left. auto.
    + exists (NoMXRecord, Medium), (queried resolve (after_first "@" email) st).
      split; [reflexivity|]. split; [|reflexivity]. right; right. auto.
  - rewrite (validate_email_invalid email st H).
    exists (InvalidSyntax, Low), st.
    split; [reflexivity|]. split; [|reflexivity]. left. auto.
Qed.

End Validation.

(** C10: an address that [validate_syntax] accepts contains exactly one
    [@]; the element at index 1 of its split on [@] exists, so the
    indexing in [validate_email] raises nothing, and it is the whole text
    after the [@]: [validate_email] returns a verdict, hands exactly that
    text to [validate_mx], and the one domain it logs as queried is that
    text. *)
Theorem validate_syntax_domain_extraction (email : str) :
  validate_syntax email = true ->
  Py.count "@" email = 1
  /\ email = before_first "@" email ++ "@"%char :: after_first "@" email
  /\ nth_error (Py.split "@" email) 1 = Some (after_first "@" email)
  /\ forall (World : Type) (resolve : str -> World -> exc (list MX) * World)
            (st : State World),
       index (Py.split "@" email) 1 st = (Ok (after_first "@" email), st)
       /\ (exists v,
             validate_email resolve email st
             = (Ok v,
                {| world := snd (resolve (after_first "@" email) (world st));
                   queries := queries st ++ [after_first "@" email] |}))
       /\ validate_email resolve email st
          = bind (validate_mx resolve (after_first "@" email))
              (fun valid : bool =>
                 if valid then ret (ValidDomain, High)
                 else ret (NoMXRecord, Medium)) st.
Proof.
  intros H. destruct (valid_domain _ H) as (Hc & He & Hs).
  repeat split; try assumption.
  - now rewrite Hs.
  - unfold index. now rewrite Hs.
  - destruct (validate_email_valid resolve email st H) as (b & _ & E).
    rewrite E. eexists. reflexivity.
  - destruct (validate_email_valid resolve email st H) as (b & Hb & E).
    rewrite E. unfold bind. rewrite Hb. now destruct b.
Qed.

Lemma validate_syntax_domain_extraction_witness :
  validate_syntax (py "jane.doe@acme.com") = true
  /\ nth_error (Py.split "@" (py "jane.doe@acme.com")) 1 = Some (py "acme.com")
  /\ exists v,
       validate_email acme_dns (py "jane.doe@acme.com") st0
       = (Ok v, {| world := tt; queries := [py "acme.com"] |}).
Proof.
  destruct (validate_syntax_domain_extraction (py "jane.doe@acme.com") eq_refl)
    as (_ & _ & Hn & H).
  destruct (H unit acme_dns st0) as (_ & (v & Hv) & _).
  split; [reflexivity|]. split; [exact Hn|]. exists v. exact Hv.
Defined.

(** C4: on an address that [validate_syntax] rejects, [validate_email]
    returns (InvalidSyntax, Low) and leaves the state as it was: the
    resolver is not called (the log of queries and the resolver's world
    are unchanged), so the result is the same under any two resolvers. *)
Theorem validate_email_invalid_no_query (email : str) :
  validate_syntax email = false ->
  forall (W1 W2 : Type)
         (resolve1 : str -> W1 -> exc (list MX) * W1)
         (resolve2 : str -> W2 -> exc (list MX) * W2)
         (st1 : State W1) (st2 : State W2),
    validate_email resolve1 email st1 = (Ok (InvalidSyntax, Low), st1)
    /\ validate_email resolve2 email st2 = (Ok (InvalidSyntax, Low), st2)
    /\ queries (snd (validate_email resolve1 email st1)) = queries st1
    /\ fst (validate_email resolve1 email st1)
       = fst (validate_email resolve2 email st2).
Proof.
  intros H W1 W2 r1 r2 st1 st2.
  rewrite (validate_email_invalid r1 email st1 H), (validate_email_invalid r2 email st2 H).
  repeat split.
Qed.

Lemma validate_email_invalid_no_query_witness :
  validate_email acme_dns (py "not-an-email") st0
    = (Ok (InvalidSyntax, Low), st0)
  /\ validate_email no_dns (py "not-an-email") st0
    = (Ok (InvalidSyntax, Low), st0).
Proof.
  destruct (@validate_email_invalid_no_query (py "not-an-email") eq_refl
              unit unit acme_dns no_dns st0 st0) as (H1 & H2 & _).
  split; assumption.
Defined.

(** ** Stripping and splitting titles *)

Lemma forallb_rev (f : ascii -> bool) s : forallb f (rev s) = forallb f s.
Proof.
  induction s as [|x s IH]; simpl; [reflexivity|].
  rewrite forallb_app, IH. simpl. rewrite andb_true_r. apply andb_comm.
Qed.

Lemma lstrip_decomp s :
  exists w, s = w ++ Py.lstrip s /\ forallb Py.isspace w = true.
Proof.
  induction s as [|c s (w & E & Hw)]; simpl.
  - now exists [].
  - destruct (Py.isspace c) eqn:Hc.
    + exists (c :: w). simpl. rewrite Hc, Hw. split; [now f_equal | reflexivity].
    + now exists [].
Qed.

Lemma rstrip_decomp s :
  exists w, s = Py.rstrip s ++ w /\ forallb Py.isspace w = true.
Proof.
  unfold Py.rstrip. destruct (lstrip_decomp (rev s)) as (w & E & Hw).
  exists (rev w). rewrite forallb_rev. split; [|assumption].
  rewrite <- rev_app_distr, <- E. symmetry. apply rev_involutive.
Qed.

Lemma strip_decomp s :
  exists w1 w2,
    s = w1 ++ Py.strip s ++ w2
    /\ forallb Py.isspace w1 = true /\ forallb Py.isspace w2 = true.
Proof.
  destruct (lstrip_decomp s) as (w1 & E1 & H1).
  destruct (rstrip_decomp (Py.lstrip s)) as (w2 & E2 & H2).
  exists w1, w2. unfold Py.strip. rewrite <- E2. auto.
Qed.

Lemma lstrip_head s c s' : Py.lstrip s = c :: s' -> Py.isspace c = false.
Proof.
  induction s as [|x s IH]; simpl; [discriminate|].
  destruct (Py.isspace x) eqn:Hx; [assumption|].
  intros E. injection E as <- _. assumption.
Qed.

Lemma lstrip_id s :
  (forall c s', s = c :: s' -> Py.isspace c = false) -> Py.lstrip s = s.
Proof.
  destruct s as [|c s]; [reflexivity|]. intros H. simpl.
  now rewrite (H c s eq_refl).
Qed.

Lemma lstrip_idempotent s : Py.lstrip (Py.lstrip s) = Py.lstrip s.
Proof.
  apply lstrip_id. intros c s'. apply lstrip_head.
Qed.

Lemma strip_idempotent s : Py.strip (Py.strip s) = Py.strip s.
Proof.
  unfold Py.strip.
  assert (L : Py.lstrip (Py.rstrip (Py.lstrip s)) = Py.rstrip (Py.lstrip s)).
  { apply lstrip_id. intros c s' E.
    destruct (rstrip_decomp (Py.lstrip s)) as (w & Ew & _).
    rewrite E in Ew. simpl in Ew. now apply lstrip_head in Ew. }
  rewrite L. unfold Py.rstrip.
  now rewrite rev_involutive, lstrip_idempotent.
Qed.

Lemma strip_In c s : In c (Py.strip s) -> In c s.
Proof.
  destruct (strip_decomp s) as (w1 & w2 & E & _). intros H.
  rewrite E, !in_app_iff. auto.
Qed.

Lemma split_hd c s : exists tl, Py.split c s = before_first c s :: tl.
Proof.
  destruct (in_dec ascii_dec c s) as [Hin | Hn].
  - destruct (before_after_first c s Hin) as [E Hb].
    exists (Py.split c (after_first c s)).
    rewrite E at 1. now apply split_app.
  - exists []. now rewrite split_none, before_first_none.
Qed.

Lemma str_get_nonneg (i : nat) (l : list str) :
  i < List.length l -> str_get (Z.of_nat i) (Some l) = nth_error l i.
Proof.
  intros H. unfold str_get.
  replace ((- Z.of_nat (List.length l) <=? Z.of_nat i)%Z) with true
    by (symmetry; apply Z.leb_le; lia).
  replace ((Z.of_nat i <? Z.of_nat (List.length l))%Z) with true
    by (symmetry; apply Z.ltb_lt; lia).
  replace ((Z.of_nat i <? 0)%Z) with false
    by (symmetry; apply Z.ltb_ge; lia).
  simpl. now rewrite Nat2Z.id.
Qed.

Lemma str_get_last (l : list str) :
  l <> [] -> str_get (-1) (Some l) = Some (last l []).
Proof.
  intros H. unfold str_get.
  assert (Hl : 1 <= List.length l) by (destruct l; simpl; [contradiction | lia]).
  replace ((- Z.of_nat (List.length l) <=? -1)%Z) with true
    by (symmetry; apply Z.leb_le; lia).
  replace ((-1 <? Z.of_nat (List.length l))%Z) with true
    by (symmetry; apply Z.ltb_lt; lia).
  simpl.
  replace (Z.to_nat (Z.of_nat (List.length l) + -1)) with (List.length l - 1) by lia.
  destruct (exists_last H) as (l' & x & ->).
  rewrite last_last, length_app. simpl.
  replace (List.length l' + 1 - 1) with (List.length l') by lia.
  now rewrite nth_error_app2, Nat.sub_diag by lia.
Qed.

Lemma split_not_nil c s : Py.split c s <> [].
Proof. destruct (split_hd c s) as (tl & ->). discriminate. Qed.

Lemma full_name_of_eq t :
  full_name_of t = Some (Py.strip (before_first "-" t)).
Proof.
  unfold full_name_of, str_split. simpl option_map.
  destruct (split_hd "-" t) as (tl & ->).
  now rewrite (@str_get_nonneg 0) by (simpl; lia).
Qed.

Lemma position_of_eq t :
  In "-"%char t ->
  position_of t = Some (Py.strip (before_first "-" (after_first "-" t))).
Proof.
  intros Hin. unfold position_of, str_split. simpl option_map.
  destruct (before_after_first "-" t Hin) as [E Hb].
  rewrite E at 1. rewrite split_app by assumption.
  destruct (split_hd "-" (after_first "-" t)) as (tl & ->).
  now rewrite (@str_get_nonneg 1) by (simpl; lia).
Qed.

Lemma count_one c s :
  Py.count c s = 1 ->
  exists a b, s = a ++ c :: b /\ ~ In c a /\ ~ In c b.
Proof.
  intros H.
  assert (Hin : In c s).
  { destruct (in_dec ascii_dec c s) as [Hin | Hn]; [assumption|].
    apply count_none in Hn. lia. }
  destruct (before_after_first c s Hin) as [E Hb].
  exists (before_first c s), (after_first c s).
  split; [assumption|]. split; [assumption|].
  rewrite E, count_app in H.
  change (Py.count c (c :: after_first c s))
    with (List.length (filter (Ascii.eqb c) (c :: after_first c s))) in H.
  simpl in H. rewrite Ascii.eqb_refl in H. simpl in H.
  apply count_none. unfold Py.count. apply count_none in Hb. lia.
Qed.

(** ** Name extraction *)

(** C3, as claimed, fails on a title with a second hyphen: the position
    is not the trimmed remainder after the first hyphen. *)
Lemma position_not_whole_remainder :
  Py.contains "-" (py "Jane Doe - HR Manager - Acme") = true
  /\ position_of (py "Jane Doe - HR Manager - Acme") = Some (py "HR Manager")
  /\ position_of (py "Jane Doe - HR Manager - Acme")
     <> Some (Py.strip (after_first "-" (py "Jane Doe - HR Manager - Acme"))).
Proof.
  split; [reflexivity|]. split; [reflexivity|].
  vm_compute. intros H. discriminate H.
Qed.

(** C3, amended: for a title with a hyphen, the full name is the trimmed
    text before the first hyphen, and the position is the trimmed text
    between the first hyphen and the next one (up to the end of the
    title when there is no other hyphen). *)
Theorem title_split_first_hyphen (t : str) :
  Py.contains "-" t = true ->
  full_name_of t = Some (Py.strip (before_first "-" t))
  /\ position_of t
     = Some (Py.strip (before_first "-" (after_first "-" t))).
Proof.
  intros H. apply contains_In in H. split.
  - apply full_name_of_eq.
  - now apply position_of_eq.
Qed.

Lemma title_split_first_hyphen_witness :
  full_name_of (py "Jane Doe - HR Manager - Acme") = Some (py "Jane Doe")
  /\ position_of (py "Jane Doe - HR Manager - Acme") = Some (py "HR Manager").
Proof.
  exact (title_split_first_hyphen (py "Jane Doe - HR Manager - Acme") eq_refl).
Defined.

(** C9: for a title with exactly one hyphen, both the full name and the
    position are present, the title is the full name, a hyphen and the
    position with white space around each of the two, and the title
    rebuilt from them as name, hyphen, position is parsed to the same
    name and position. *)
Theorem title_round_trip (t : str) :
  Py.count "-" t = 1 ->
  exists name pos,
    full_name_of t = Some name
    /\ position_of t = Some pos
    /\ (exists w1 w2 w3 w4,
          t = (w1 ++ name ++ w2) ++ "-"%char :: (w3 ++ pos ++ w4)
          /\ forallb Py.isspace (w1 ++ w2 ++ w3 ++ w4) = true)
    /\ full_name_of (name ++ "-"%char :: pos) = Some name
    /\ position_of (name ++ "-"%char :: pos) = Some pos.
Proof.
  intros H. apply count_one in H as (a & b & -> & Ha & Hb).
  assert (Hin : In "-"%char (a ++ "-"%char :: b))
    by (rewrite in_app_iff; right; now left).
  destruct (first_unique "-" a b Ha) as [Eb Ea].
  exists (Py.strip a), (Py.strip b).
  assert (Hsa : ~ In "-"%char (Py.strip a))
    by (intros F; apply Ha; now apply strip_In).
  assert (Hsb : ~ In "-"%char (Py.strip b))
    by (intros F; apply Hb; now apply strip_In).
  split; [now rewrite full_name_of_eq, Eb|].
  split; [now rewrite position_of_eq, Ea, before_first_none|].
  split.
  - destruct (strip_decomp a) as (w1 & w2 & E1 & H1 & H2).
    destruct (strip_decomp b) as (w3 & w4 & E3 & H3 & H4).
    exists w1, w2, w3, w4. rewrite <- E1, <- E3.
    split; [reflexivity|].
    now rewrite !forallb_app, H1, H2, H3, H4.
  - destruct (first_unique "-" (Py.strip a) (Py.strip b) Hsa) as [Fb Fa].
    split.
    + now rewrite full_name_of_eq, Fb, strip_idempotent.
    + rewrite position_of_eq, Fa, before_first_none, strip_idempotent;
        [reflexivity | assumption|].
      rewrite in_app_iff; right; now left.
Qed.

Lemma title_round_trip_witness :
  exists name pos,
    full_name_of (py "  Jane Doe - HR Manager ") = Some name
    /\ position_of (py "  Jane Doe - HR Manager ") = Some pos
    /\ name ++ "-"%char :: pos = py "Jane Doe-HR Manager".
Proof.
  destruct (title_round_trip (py "  Jane Doe - HR Manager ") eq_refl)
    as (name & pos & Hn & Hp & _).
  exists name, pos. split; [assumption|]. split; [assumption|].
  vm_compute in Hn, Hp. injection Hn as <-. injection Hp as <-. reflexivity.
Defined.

(** ** Address synthesis *)

Lemma first_last_present (full : str) :
  exists first last,
    first_name_of (Some full) = Some first
    /\ last_name_of (Some full) = Some last.
Proof.
  unfold first_name_of, last_name_of, str_split. simpl option_map.
  exists (before_first " " full), (last (Py.split " " full) []). split.
  - destruct (split_hd " " full) as (tl & ->).
    now rewrite (@str_get_nonneg 0) by (simpl; lia).
  - apply str_get_last, split_not_nil.
Qed.

(** C2, as claimed, fails when the domain suffix has a capital letter:
    the suffix is not appended as supplied. *)
Lemma suffix_not_verbatim :
  email_of (Some (py "Jane")) (Some (py "Doe")) Dot (py "@ACME.com")
    = Some (py "jane.doe@acme.com")
  /\ email_of (Some (py "Jane")) (Some (py "Doe")) Dot (py "@ACME.com")
     <> Some (Py.lower (py "Jane") ++ separator_str Dot
              ++ Py.lower (py "Doe") ++ py "@ACME.com").
Proof.
  split; [reflexivity|]. vm_compute. intros H. discriminate H.
Qed.

(** C2, amended: the address is the lower-cased first name, the
    separator, the lower-cased last name and the lower-cased domain
    suffix; for every row the first name, the last name and the address
    are present, so the synthesis is total. *)
Theorem email_synthesis (separator : Separator) (email_suffix : str) :
  (forall first last,
     email_of (Some first) (Some last) separator email_suffix
     = Some (Py.lower first ++ separator_str separator
             ++ Py.lower last ++ Py.lower email_suffix))
  /\ (forall r : Row,
        exists first last,
          first_name (columns separator email_suffix r) = Some first
          /\ last_name (columns separator email_suffix r) = Some last
          /\ email (columns separator email_suffix r)
             = Some (Py.lower first ++ separator_str separator
                     ++ Py.lower last ++ Py.lower email_suffix)).
Proof.
  assert (E : forall first last,
     email_of (Some first) (Some last) separator email_suffix
     = Some (Py.lower first ++ separator_str separator
             ++ Py.lower last ++ Py.lower email_suffix)).
  { intros first last. unfold email_of. simpl.
    now rewrite <- !app_assoc. }
  split; [exact E|].
  intros r. unfold columns. simpl.
  rewrite full_name_of_eq.
  destruct (first_last_present (Py.strip (before_first "-" (Title r))))
    as (first & last & -> & ->).
  exists first, last. auto.
Qed.

Example scenario_dot :
  map email (map (columns Dot (py "@acme.com"))
               (scrape_profiles
                  [[{| title := Some (py "Jane Doe - HR Manager"); link := None |}]]))
  = [Some (py "jane.doe@acme.com")].
Proof. reflexivity. Qed.

Example scenario_underscore :
  map email (map (columns Underscore (py "@acme.com"))
               (scrape_profiles
                  [[{| title := Some (py "Jane Doe - HR Manager"); link := None |}]]))
  = [Some (py "jane_doe@acme.com")].
Proof. reflexivity. Qed.

(** ** Collecting and deduplicating the search results *)

Lemma str_eqb_eq a b : str_eqb a b = true <-> a = b.
Proof.
  revert b. induction a as [|x a IH]; intros [|y b]; simpl;
    try (split; [discriminate | discriminate]); [tauto|].
  rewrite andb_true_iff, Ascii.eqb_eq, IH. split.
  - intros [-> ->]. reflexivity.
  - intros E. injection E as -> ->. auto.
Qed.

Lemma link_eqb_eq a b : link_eqb a b = true <-> a = b.
Proof.
  destruct a as [x|], b as [y|]; simpl;
    try (split; [discriminate | discriminate]); [|tauto].
  rewrite str_eqb_eq. split; [now intros -> | now intros [= ->]].
Qed.

Lemma row_eqb_eq a b : row_eqb a b = true <-> a = b.
Proof.
  unfold row_eqb. rewrite andb_true_iff, str_eqb_eq, link_eqb_eq.
  destruct a, b; simpl. split.
  - intros [-> ->]. reflexivity.
  - intros [= -> ->]. auto.
Qed.

Lemma row_eq_dec (a b : Row) : {a = b} + {a <> b}.
Proof.
  destruct (row_eqb a b) eqn:E.
  - left. now apply row_eqb_eq.
  - right. intros H. apply row_eqb_eq in H. congruence.
Qed.

Lemma seen_In r seen : existsb (row_eqb r) seen = true <-> In r seen.
Proof.
  rewrite existsb_exists. split.
  - intros (x & Hx & E). apply row_eqb_eq in E. now subst.
  - intros H. exists r. split; [assumption | now apply row_eqb_eq].
Qed.

Lemma contains_truthy c t : Py.contains c t = true -> truthy t = true.
Proof. destruct t; [discriminate | reflexivity]. Qed.

Lemma keep_list_cases x :
  keep_list x = []
  \/ exists y, keep_list x = [y] /\ x = raw y
               /\ Py.contains "-" (Title y) = true.
Proof.
  unfold keep_list. destruct x as [[t|] l]; simpl; [|now left].
  destruct (truthy t && Py.contains "-" t) eqn:E; [|now left].
  right. exists {| Title := t; Link := l |}.
  apply andb_true_iff in E as [_ E]. auto.
Qed.

Lemma keep_list_raw y :
  Py.contains "-" (Title y) = true -> keep_list (raw y) = [y].
Proof.
  intros H. unfold keep_list, raw. simpl.
  rewrite H, (contains_truthy _ _ H). now destruct y.
Qed.

Lemma keep_list_hyphenless r : has_hyphen (title r) = false -> keep_list r = [].
Proof.
  unfold keep_list, has_hyphen. destruct (title r); [|reflexivity].
  intros ->. now rewrite andb_false_r.
Qed.

Lemma organic_loop_eq results :
  forall rows, organic_loop rows results = rows ++ flat_map keep_list results.
Proof.
  induction results as [|r rest IH]; intros rows; simpl.
  - now rewrite app_nil_r.
  - unfold keep_list at 1. destruct (title r) as [t|]; [|apply IH].
    destruct (truthy t && Py.contains "-" t); rewrite IH; [|reflexivity].
    now rewrite <- app_assoc.
Qed.

Lemma page_loop_eq pages :
  forall rows, page_loop rows pages = rows ++ flat_map keep_list (List.concat pages).
Proof.
  induction pages as [|p rest IH]; intros rows; simpl.
  - now rewrite app_nil_r.
  - now rewrite IH, organic_loop_eq, flat_map_app, app_assoc.
Qed.

Lemma scrape_profiles_eq pages :
  scrape_profiles pages = drop_duplicates (flat_map keep_list (List.concat pages)).
Proof. unfold scrape_profiles. now rewrite page_loop_eq. Qed.

Lemma kept_In y batch :
  In y (flat_map keep_list batch) <->
  In (raw y) batch /\ Py.contains "-" (Title y) = true.
Proof.
  rewrite in_flat_map. split.
  - intros (x & Hx & Hy).
    destruct (keep_list_cases x) as [E | (z & E & -> & Hz)];
      rewrite E in Hy; simpl in Hy; [contradiction|].
    destruct Hy as [<- | []]. auto.
  - intros [Hin Hc]. exists (raw y). split; [assumption|].
    rewrite keep_list_raw by assumption. now left.
Qed.

Lemma drop_from_In x l :
  forall seen, In x (drop_from seen l) <-> In x l /\ ~ In x seen.
Proof.
  induction l as [|r l IH]; intros seen; simpl; [tauto|].
  destruct (existsb (row_eqb r) seen) eqn:E.
  - apply seen_In in E. rewrite IH. split.
    + intros [H Hn]. auto.
    + intros [[-> | H] Hn]; [contradiction | auto].
  - assert (Hr : ~ In r seen) by (rewrite <- seen_In; congruence).
    simpl. rewrite IH. simpl. split.
    + intros [-> | [H Hn]]; auto.
    + intros [[-> | H] Hn]; [now left|].
      destruct (row_eq_dec r x) as [-> | Hne]; [now left|].
      right. split; [assumption|]. intros [F | F]; contradiction.
Qed.

Lemma drop_from_NoDup l : forall seen, NoDup (drop_from seen l).
Proof.
  induction l as [|r l IH]; intros seen; simpl; [constructor|].
  destruct (existsb (row_eqb r) seen); [apply IH|].
  constructor; [|apply IH].
  rewrite drop_from_In. intros [_ H]. apply H. now left.
Qed.

Lemma in_split_first (b : Row) l :
  In b l -> exists l2 l3, l = l2 ++ b :: l3 /\ ~ In b l2.
Proof.
  induction l as [|x l IH]; simpl; [tauto|]. intros H.
  destruct (row_eq_dec x b) as [-> | Hne].
  - exists [], l. auto.
  - destruct IH as (l2 & l3 & -> & Hn); [destruct H; [contradiction | assumption]|].
    exists (x :: l2), l3. split; [reflexivity|].
    intros [F | F]; contradiction.
Qed.

Lemma drop_from_order l :
  forall seen k1 a k2 b k3,
    drop_from seen l = k1 ++ a :: k2 ++ b :: k3 -> first_before a b l.
Proof.
  induction l as [|x l IH]; intros seen k1 a k2 b k3 E; simpl in E.
  - destruct k1; discriminate.
  - assert (Ha : In a (k1 ++ a :: k2 ++ b :: k3))
      by (rewrite in_app_iff; right; now left).
    assert (Hb : In b (k1 ++ a :: k2 ++ b :: k3))
      by (rewrite in_app_iff; right; right; rewrite in_app_iff; right; now left).
    destruct (existsb (row_eqb x) seen) eqn:Hx.
    + apply seen_In in Hx.
      rewrite <- E in Ha, Hb. apply drop_from_In in Ha as [_ Ha], Hb as [_ Hb].
      destruct (IH _ _ _ _ _ _ E) as (l1 & l2 & l3 & -> & H1 & H2 & H3 & H4).
      exists (x :: l1), l2, l3. split; [reflexivity|].
      repeat split; auto; intros [-> | F]; contradiction.
    + destruct k1 as [|y k1]; simpl in E; injection E as Ex E; subst x.
      * assert (Hb' : In b (drop_from (a :: seen) l))
          by (rewrite E, in_app_iff; right; now left).
        apply drop_from_In in Hb' as [Hbl Hbs].
        destruct (in_split_first b l Hbl) as (l2 & l3 & -> & Hn).
        exists [], l2, l3. split; [reflexivity|].
        repeat split; auto. intros ->. apply Hbs. now left.
      * assert (Ha' : In a (drop_from (y :: seen) l))
          by (rewrite E, in_app_iff; right; now left).
        assert (Hb' : In b (drop_from (y :: seen) l))
          by (rewrite E, in_app_iff; right; right; rewrite in_app_iff; right; now left).
        apply drop_from_In in Ha' as [_ Ha'], Hb' as [_ Hb'].
        destruct (IH _ _ _ _ _ _ E) as (l1 & l2 & l3 & -> & H1 & H2 & H3 & H4).
        exists (y :: l1), l2, l3. split; [reflexivity|].
        repeat split; auto; intros [-> | F]; try contradiction.
        -- apply Ha'. now left.
        -- apply Hb'. now left.
Qed.

Lemma raw_inj a b : raw a = raw b -> a = b.
Proof. destruct a, b. unfold raw. simpl. now intros [= -> ->]. Qed.

Lemma kept_split l :
  forall k1 a k2,
    flat_map keep_list l = k1 ++ a :: k2 ->
    exists m1 m2,
      l = m1 ++ raw a :: m2
      /\ flat_map keep_list m1 = k1 /\ flat_map keep_list m2 = k2.
Proof.
  induction l as [|x l IH]; intros k1 a k2 E; simpl in E.
  - destruct k1; discriminate.
  - destruct (keep_list_cases x) as [Hx | (y & Hx & -> & Hy)].
    + rewrite Hx in E. simpl in E.
      destruct (IH _ _ _ E) as (m1 & m2 & -> & E1 & E2).
      exists (x :: m1), m2. simpl. rewrite Hx. auto.
    + rewrite Hx in E. simpl in E. destruct k1 as [|z k1]; simpl in E.
      * injection E as -> E. exists [], l. auto.
      * injection E as -> E.
        destruct (IH _ _ _ E) as (m1 & m2 & -> & E1 & E2).
        exists (raw z :: m1), m2. simpl. rewrite Hx, E1. auto.
Qed.

Lemma kept_order batch a b :
  first_before a b (flat_map keep_list batch) ->
  first_before (raw a) (raw b) batch.
Proof.
  intros (l1 & l2 & l3 & E & H1 & H2 & H3 & H4).
  assert (Ha : Py.contains "-" (Title a) = true).
  { apply (kept_In a batch). rewrite E, in_app_iff. right; now left. }
  assert (Hb : Py.contains "-" (Title b) = true).
  { apply (kept_In b batch). rewrite E, in_app_iff. right; right.
    rewrite in_app_iff. right; now left. }
  apply kept_split in E as (m1 & m' & -> & E1 & E2).
  apply kept_split in E2 as (m2 & m3 & -> & E2 & E3).
  exists m1, m2, m3. split; [reflexivity|]. subst l1 l2.
  repeat split.
  - intros F. apply H1. apply kept_In. auto.
  - intros F. apply H2. apply kept_In. auto.
  - intros F. apply H3. apply kept_In. auto.
  - intros F. apply H4. now apply raw_inj.
Qed.

Lemma NoDup_count (x : Row) l :
  NoDup l -> In x l -> List.length (filter (row_eqb x) l) = 1.
Proof.
  induction 1 as [|y l Hn N IH]; simpl; [tauto|].
  intros [-> | Hin].
  - replace (row_eqb x x) with true by (symmetry; now apply row_eqb_eq).
    simpl. f_equal. apply length_zero_iff_nil.
    destruct (filter (row_eqb x) l) as [|z f] eqn:F; [reflexivity|].
    exfalso. assert (Hz : In z (filter (row_eqb x) l)) by (rewrite F; now left).
    apply filter_In in Hz as [Hz Ez]. apply row_eqb_eq in Ez. now subst.
  - destruct (row_eqb x y) eqn:E; [|now apply IH].
    apply row_eqb_eq in E. now subst.
Qed.

Section Pipeline.

Variable World : Type.
Variable resolve : str -> World -> exc (list MX) * World.

Lemma columns_email separator email_suffix r :
  exists first last,
    first_name (columns separator email_suffix r) = Some first
    /\ last_name (columns separator email_suffix r) = Some last
    /\ email (columns separator email_suffix r)
       = Some (Py.lower first ++ separator_str separator
               ++ Py.lower last ++ Py.lower email_suffix).
Proof.
  unfold columns. simpl. rewrite full_name_of_eq.
  destruct (first_last_present (Py.strip (before_first "-" (Title r))))
    as (first & last & -> & ->).
  exists first, last. unfold email_of. simpl. now rewrite <- !app_assoc.
Qed.

Lemma validate_email_returns email st :
  exists v st', validate_email resolve email st = (Ok v, st').
Proof.
  destruct (validate_syntax email) eqn:H.
  - destruct (validate_email_valid resolve email st H) as (b & _ & E).
    rewrite E. eauto.
  - rewrite (validate_email_invalid resolve email st H). eauto.
Qed.

Lemma mapM_validate separator email_suffix df :
  forall st,
    exists results st',
      mapM (apply_validate_email resolve)
        (map email (map (columns separator email_suffix) df)) st
      = (Ok results, st')
      /\ List.length results = List.length df.
Proof.
  induction df as [|r df IH]; intros st; cbn [map mapM].
  - exists [], st. auto.
  - destruct (columns_email separator email_suffix r) as (f & l & _ & _ & ->).
    cbn [apply_validate_email]. unfold bind at 1.
    destruct (validate_email_returns
                (Py.lower f ++ separator_str separator ++ Py.lower l
                 ++ Py.lower email_suffix) st) as (v & st1 & ->).
    unfold bind at 1.
    destruct (IH st1) as (results & st2 & -> & Hl).
    exists (v :: results), st2. simpl. auto.
Qed.

Lemma map_cols_combine (table : list Columns) :
  forall results,
    List.length results = List.length table ->
    map cols (map with_verdict (combine table results)) = table.
Proof.
  induction table as [|c table IH]; intros [|v results] Hl; simpl in *;
    try discriminate; [reflexivity|].
  f_equal. apply IH. lia.
Qed.

Lemma map_source_columns separator email_suffix df :
  map source (map (columns separator email_suffix) df) = df.
Proof.
  induction df as [|r df IH]; simpl; [reflexivity | now rewrite IH].
Qed.

(** The table of [main_action]: one row per row of the scraped frame, in
    the same order, unless the frame is empty and the script stops. *)
Lemma main_action_rows separator email_suffix pages st :
  (scrape_profiles pages = []
   /\ main_action resolve separator email_suffix pages st
      = (Exn StopException, st))
  \/ (scrape_profiles pages <> []
      /\ exists rows st',
           main_action resolve separator email_suffix pages st = (Ok rows, st')
           /\ map cols rows
              = map (columns separator email_suffix) (scrape_profiles pages)
           /\ map (fun row => source (cols row)) rows = scrape_profiles pages).
Proof.
  unfold main_action.
  destruct (scrape_profiles pages) as [|r df] eqn:E; [left; auto|].
  right. split; [discriminate|].
  destruct (mapM_validate separator email_suffix (r :: df) st)
    as (results & st' & Hm & Hl).
  unfold bind. rewrite Hm.
  exists (map with_verdict
            (combine (map (columns separator email_suffix) (r :: df)) results)), st'.
  split; [reflexivity|].
  assert (Hc : map cols
                 (map with_verdict
                    (combine (map (columns separator email_suffix) (r :: df)) results))
               = map (columns separator email_suffix) (r :: df)).
  { apply map_cols_combine. now rewrite length_map. }
  split; [exact Hc|].
  rewrite <- (map_map cols source), Hc. apply map_source_columns.
Qed.

End Pipeline.

Section Orchestration.

Variable World : Type.
Variable resolve : str -> World -> exc (list MX) * World.

(** C6: the table has one row for each distinct (title, link) pair of the
    batch whose title has a hyphen: no pair appears twice, a pair occurs
    in the table exactly once when it occurs in the batch, however often,
    and the rows are in the order in which the pairs first occur in the
    batch.  When no record of the batch has a hyphen in its title, the
    script stops and there is no table. *)
Theorem main_action_dedup (separator : Separator) (email_suffix : str)
    (pages : list (list Result)) (st : State World) :
  let batch := List.concat pages in
  (exists rows st',
     main_action resolve separator email_suffix pages st = (Ok rows, st')
     /\ let keys := map (fun row => source (cols row)) rows in
        NoDup keys
        /\ (forall r, In r keys <->
                      In (raw r) batch /\ Py.contains "-" (Title r) = true)
        /\ (forall r, In (raw r) batch -> Py.contains "-" (Title r) = true ->
                      List.length (filter (row_eqb r) keys) = 1)
        /\ (forall k1 a k2 b k3, keys = k1 ++ a :: k2 ++ b :: k3 ->
                                 first_before (raw a) (raw b) batch))
  \/ (main_action resolve separator email_suffix pages st
      = (Exn StopException, st)
      /\ forall r, In r batch -> has_hyphen (title r) = false).
Proof.
  intros batch.
  assert (HIn : forall r, In r (scrape_profiles pages) <->
                  In (raw r) batch /\ Py.contains "-" (Title r) = true).
  { intros r. rewrite scrape_profiles_eq. unfold drop_duplicates.
    rewrite drop_from_In, kept_In. simpl. tauto. }
  destruct (main_action_rows resolve separator email_suffix pages st)
    as [[E Hm] | (_ & rows & st' & Hm & _ & Hk)].
  - right. split; [assumption|]. intros r Hr.
    destruct (has_hyphen (title r)) eqn:H; [exfalso | reflexivity].
    destruct r as [[t|] l]; simpl in H; [|discriminate].
    assert (F : In {| Title := t; Link := l |} (scrape_profiles pages))
      by (apply HIn; auto).
    now rewrite E in F.
  - left. exists rows, st'. split; [assumption|]. cbv zeta. rewrite Hk.
    split; [rewrite scrape_profiles_eq; apply drop_from_NoDup|].
    split; [exact HIn|]. split.
    + intros r H1 H2. apply NoDup_count.
      * rewrite scrape_profiles_eq. apply drop_from_NoDup.
      * apply HIn. auto.
    + intros k1 a k2 b k3 E. apply kept_order.
      rewrite scrape_profiles_eq in E. now apply drop_from_order in E.
Qed.

(** C7: a record whose title has no hyphen changes nothing: the run with
    it gives the result of the run without it, raises no error for it,
    and no row of the table comes from it. *)
Theorem hyphenless_record_dropped (separator : Separator) (email_suffix : str)
    (pages1 pages2 : list (list Result)) (results1 results2 : list Result)
    (r : Result) (st : State World) :
  has_hyphen (title r) = false ->
  main_action resolve separator email_suffix
    (pages1 ++ (results1 ++ r :: results2) :: pages2) st
  = main_action resolve separator email_suffix
      (pages1 ++ (results1 ++ results2) :: pages2) st
  /\ forall rows st',
       main_action resolve separator email_suffix
         (pages1 ++ (results1 ++ r :: results2) :: pages2) st = (Ok rows, st') ->
       forall row, In row rows -> raw (source (cols row)) <> r.
Proof.
  intros H.
  assert (E : scrape_profiles (pages1 ++ (results1 ++ r :: results2) :: pages2)
              = scrape_profiles (pages1 ++ (results1 ++ results2) :: pages2)).
  { rewrite !scrape_profiles_eq. f_equal.
    rewrite !concat_app. simpl. rewrite !flat_map_app. simpl.
    now rewrite (keep_list_hyphenless r H). }
  split; [unfold main_action; now rewrite E|].
  intros rows st' Hm row Hrow Hr.
  destruct (main_action_rows resolve separator email_suffix
              (pages1 ++ (results1 ++ r :: results2) :: pages2) st)
    as [[_ Hs] | (_ & rows' & st'' & Hm' & _ & Hk)];
    rewrite Hm in *; [discriminate|].
  injection Hm' as <- <-.
  assert (F : In (source (cols row))
                (scrape_profiles (pages1 ++ (results1 ++ r :: results2) :: pages2))).
  { rewrite <- Hk. now apply (in_map (fun row => source (cols row))). }
  rewrite scrape_profiles_eq in F. unfold drop_duplicates in F.
  apply drop_from_In in F as [F _]. apply kept_In in F as [_ F].
  rewrite <- Hr in H. simpl in H. congruence.
Qed.

End Orchestration.

Lemma hyphenless_record_dropped_witness :
  main_action acme_dns Dot (py "@acme.com")
    [[{| title := Some (py "Jane Doe HR Manager"); link := None |}; jane]] st0
  = main_action acme_dns Dot (py "@acme.com") [[jane]] st0.
Proof.
  exact (proj1 (@hyphenless_record_dropped unit acme_dns Dot (py "@acme.com")
                  [] [] [] [jane]
                  {| title := Some (py "Jane Doe HR Manager"); link := None |}
                  st0 eq_refl)).
Defined.

Example duplicates_collapse :
  map (fun row => source (cols row))
    match fst (main_action acme_dns Dot (py "@acme.com") [[jane]; [jane]] st0) with
    | Ok rows => rows
    | Exn _ => []
    end
  = [{| Title := py "Jane Doe - HR Manager - Acme | LinkedIn";
        Link := Some (py "https://linkedin.com/in/jane") |}].
Proof. reflexivity. Qed.

Example scenario_no_mx :
  validate_email no_dns (py "jane.doe@nonexistent-domain-xyz.invalid") st0
  = (Ok (NoMXRecord, Medium),
     {| world := tt; queries := [py "nonexistent-domain-xyz.invalid"] |}).
Proof. reflexivity. Qed.

(** ** Further properties of the validators *)

Lemma domain_char_local c : domain_char c = true -> local_char c = true.
Proof.
  unfold domain_char, local_char, one_of. simpl.
  destruct (is_letter c), (is_digit c); simpl; try reflexivity.
  destruct (Ascii.eqb c "."), (Ascii.eqb c "-"), (Ascii.eqb c "_"),
    (Ascii.eqb c "%"), (Ascii.eqb c "+"); simpl; auto.
Qed.

Lemma letter_local c : is_letter c = true -> local_char c = true.
Proof. unfold local_char. now intros ->. Qed.

Lemma well_formed_chars s c :
  well_formed s -> In c s -> local_char c = true \/ c = "@"%char.
Proof.
  intros (loc & dom & tld & -> & _ & Hfl & _ & Hfd & _ & Hft).
  rewrite forallb_forall in Hfl, Hfd, Hft.
  rewrite in_app_iff. simpl. rewrite in_app_iff. simpl.
  intros [H | [<- | [H | [<- | H]]]]; auto.
  - left. apply domain_char_local. auto.
  - left. apply letter_local. auto.
Qed.

Lemma well_formed_length s : well_formed s -> 6 <= List.length s.
Proof.
  intros (loc & dom & tld & -> & Hl & _ & Hd & _ & Ht & _).
  rewrite length_app. simpl. rewrite length_app. simpl. lia.
Qed.

(** X: an accepted address has at least six characters, and each of its
    characters is a letter, a digit, one of [._%+-], the [@], or a
    newline; an address with a space or any other character is
    rejected. *)
Theorem accepted_characters (s : str) :
  validate_syntax s = true ->
  6 <= List.length s
  /\ forall c, In c s -> local_char c = true \/ c = "@"%char \/ c = newline.
Proof.
  intros H. apply validate_syntax_iff in H as [W | (s' & -> & W)].
  - split; [now apply well_formed_length|].
    intros c Hc. destruct (@well_formed_chars _ c W Hc); auto.
  - split.
    + rewrite length_app. apply well_formed_length in W. lia.
    + intros c. rewrite in_app_iff. simpl. intros [Hc | [<- | []]]; auto.
      destruct (@well_formed_chars _ c W Hc); auto.
Qed.

Lemma accepted_characters_witness :
  6 <= List.length (py "jane.doe@acme.com")
  /\ forall c, In c (py "jane.doe@acme.com") ->
               local_char c = true \/ c = "@"%char \/ c = newline.
Proof.
  exact (accepted_characters (py "jane.doe@acme.com") eq_refl).
Defined.

Section Queries.

Variable World : Type.
Variable resolve : str -> World -> exc (list MX) * World.

Lemma validate_email_step e st :
  exists v,
    validate_email resolve e st
    = (Ok v, if validate_syntax e
             then queried resolve (after_first "@" e) st else st)
    /\ verdict_for e v.
Proof.
  destruct (validate_syntax e) eqn:H.
  - destruct (validate_email_valid resolve e st H) as (b & _ & E).
    rewrite E. unfold verdict_for. rewrite H.
    destruct b; eexists; split; try reflexivity; simpl; auto.
  - rewrite (validate_email_invalid resolve e st H).
    exists (InvalidSyntax, Low). unfold verdict_for. rewrite H. simpl. auto.
Qed.

(** X: for an address that passes the syntax check, [validate_email]
    asks the resolver exactly once, for the text after the [@], and the
    verdict follows that one answer: ValidDomain for an answer with a
    record, NoMXRecord for an empty answer or any exception. *)
Theorem validate_email_one_query (email : str) (st : State World) :
  validate_syntax email = true ->
  validate_email resolve email st
  = (Ok match fst (resolve (after_first "@" email) (world st)) with
        | Ok (_ :: _) => (ValidDomain, High)
        | _ => (NoMXRecord, Medium)
        end,
     {| world := snd (resolve (after_first "@" email) (world st));
        queries := queries st ++ [after_first "@" email] |}).
Proof.
  intros H.
  destruct (validate_email_valid resolve email st H) as (b & Hb & E).
  rewrite E. rewrite validate_mx_run in Hb. injection Hb as <-.
  unfold queried.
  destruct (fst (resolve (after_first "@" email) (world st))) as [[|m ms]|e];
    reflexivity.
Qed.

End Queries.

Lemma validate_email_one_query_witness :
  validate_email acme_dns (py "jane.doe@acme.com") st0
  = (Ok (ValidDomain, High), {| world := tt; queries := [py "acme.com"] |}).
Proof.
  exact (@validate_email_one_query unit acme_dns (py "jane.doe@acme.com") st0
           eq_refl).
Defined.

(** ** Further properties of the name columns *)

Lemma split_pieces_no_sep c s :
  ~ In c (fst (Py.split_pieces c s))
  /\ forall q, In q (snd (Py.split_pieces c s)) -> ~ In c q.
Proof.
  induction s as [|x s [IH1 IH2]]; simpl; [tauto|].
  destruct (Py.split_pieces c s) as [p ps]. simpl in *.
  destruct (Ascii.eqb_spec x c) as [->|Hne]; simpl.
  - split; [tauto|]. intros q [<- | Hq]; auto.
  - split; [|assumption]. intros [F | F]; [congruence | contradiction].
Qed.

Lemma split_pieces_chars c s :
  (forall x, In x (fst (Py.split_pieces c s)) -> In x s)
  /\ forall q x, In q (snd (Py.split_pieces c s)) -> In x q -> In x s.
Proof.
  induction s as [|y s [IH1 IH2]]; simpl; [tauto|].
  destruct (Py.split_pieces c s) as [p ps]. simpl in *.
  destruct (Ascii.eqb y c); simpl.
  - split; [tauto|]. intros q x [<- | Hq] Hx; [right; auto|].
    right. now apply (IH2 q).
  - split.
    + intros x [-> | Hx]; auto.
    + intros q x Hq Hx. right. now apply (IH2 q).
Qed.

Lemma split_piece_no_sep c s q : In q (Py.split c s) -> ~ In c q.
Proof.
  unfold Py.split. pose proof (split_pieces_no_sep c s) as [H1 H2].
  destruct (Py.split_pieces c s) as [p ps]. simpl in *.
  intros [<- | Hq]; auto.
Qed.

Lemma split_piece_chars c s q x : In q (Py.split c s) -> In x q -> In x s.
Proof.
  unfold Py.split. pose proof (split_pieces_chars c s) as [H1 H2].
  destruct (Py.split_pieces c s) as [p ps]. simpl in *.
  intros [<- | Hq] Hx; [auto | now apply (H2 q)].
Qed.

Lemma last_In (l : list str) d : l <> [] -> In (last l d) l.
Proof.
  intros H. destruct (exists_last H) as (l' & x & ->).
  rewrite last_last, in_app_iff. right. now left.
Qed.

(** The last piece is empty only for the empty string and for a string
    that ends in the separator. *)
Lemma split_last_empty c s :
  last (Py.split c s) [] = [] -> s = [] \/ exists s', s = s' ++ [c].
Proof.
  unfold Py.split. induction s as [|x s IH]; [now left|].
  simpl. destruct (Py.split_pieces c s) as [p ps] eqn:E.
  destruct (Ascii.eqb_spec x c) as [->|Hne].
  - intros H. right. change (last ([] :: p :: ps) []) with (last (p :: ps) []) in H.
    destruct (IH H) as [-> | (s' & ->)]; [now exists [] | now exists (c :: s')].
  - destruct ps as [|q ps]; [discriminate|].
    intros H. change (last ((x :: p) :: q :: ps) []) with (last (q :: ps) []) in H.
    right. destruct IH as [-> | (s' & ->)]; [exact H | discriminate | ].
    now exists (x :: s').
Qed.

Lemma before_first_nil c s :
  before_first c s = [] -> s = [] \/ exists s', s = c :: s'.
Proof.
  destruct s as [|x s]; [now left|]. simpl.
  destruct (Ascii.eqb_spec x c) as [->|_]; [|discriminate].
  right. now exists s.
Qed.

Lemma before_first_In c s x : In x (before_first c s) -> In x s.
Proof.
  induction s as [|y s IH]; simpl; [tauto|].
  destruct (Ascii.eqb y c); simpl; [tauto|]. intros [-> | H]; auto.
Qed.

Lemma before_first_no_sep c s : ~ In c (before_first c s).
Proof.
  induction s as [|y s IH]; simpl; [tauto|].
  destruct (Ascii.eqb_spec y c) as [->|Hne]; simpl; [tauto|].
  intros [F | F]; contradiction.
Qed.

Lemma strip_first s c s' : Py.strip s = c :: s' -> Py.isspace c = false.
Proof.
  intros E. destruct (rstrip_decomp (Py.lstrip s)) as (w & Ew & _).
  fold (Py.strip s) in Ew. rewrite E in Ew. simpl in Ew.
  now apply lstrip_head in Ew.
Qed.

Lemma strip_last s c s' : Py.strip s = s' ++ [c] -> Py.isspace c = false.
Proof.
  unfold Py.strip, Py.rstrip. intros E.
  apply (f_equal (@rev ascii)) in E.
  rewrite rev_involutive, rev_app_distr in E. simpl in E.
  now apply lstrip_head in E.
Qed.

Lemma first_name_of_eq full :
  first_name_of (Some full) = Some (before_first " " full).
Proof.
  unfold first_name_of, str_split. simpl option_map.
  destruct (split_hd " " full) as (tl & ->).
  now rewrite (@str_get_nonneg 0) by (simpl; lia).
Qed.

Lemma last_name_of_eq full :
  last_name_of (Some full) = Some (last (Py.split " " full) []).
Proof.
  unfold last_name_of, str_split. simpl option_map.
  apply str_get_last, split_not_nil.
Qed.

(** X: the full name, the first name and the last name of a title are
    always present.  The full name carries no white space at either end
    and no hyphen; the first and the last name have no space; they are
    empty only when the full name is empty, and both are the full name
    when it has no space. *)
Theorem name_columns (t : str) :
  exists full first last,
    full_name_of t = Some full
    /\ first_name_of (Some full) = Some first
    /\ last_name_of (Some full) = Some last
    /\ Py.strip full = full /\ ~ In "-"%char full
    /\ ~ In " "%char first /\ ~ In " "%char last
    /\ (full <> [] -> first <> [] /\ last <> [])
    /\ (~ In " "%char full -> first = full /\ last = full).
Proof.
  exists (Py.strip (before_first "-" t)),
         (before_first " " (Py.strip (before_first "-" t))),
         (last (Py.split " " (Py.strip (before_first "-" t))) []).
  set (full := Py.strip (before_first "-" t)).
  split; [apply full_name_of_eq|].
  split; [apply first_name_of_eq|].
  split; [apply last_name_of_eq|].
  split; [apply strip_idempotent|].
  split; [intros F; apply strip_In in F; now apply before_first_no_sep in F|].
  split; [apply before_first_no_sep|].
  split; [apply (split_piece_no_sep " " full), last_In, split_not_nil|].
  split.
  - intros Hne. split; intros E.
    + apply before_first_nil in E as [E | (s' & E)]; [contradiction|].
      apply strip_first in E. discriminate.
    + apply split_last_empty in E as [E | (s' & E)]; [contradiction|].
      apply strip_last in E. discriminate.
  - intros Hn. rewrite split_none, before_first_none by assumption. auto.
Qed.


(** ** Further properties of the synthesized address *)

Lemma lower_char_idempotent c : Py.lower_char (Py.lower_char c) = Py.lower_char c.
Proof. destruct c as [[] [] [] [] [] [] [] []]; reflexivity. Qed.

Lemma lower_idempotent s : Py.lower (Py.lower s) = Py.lower s.
Proof.
  unfold Py.lower. rewrite map_map. apply map_ext. apply lower_char_idempotent.
Qed.

Lemma lower_app a b : Py.lower (a ++ b) = Py.lower a ++ Py.lower b.
Proof. apply map_app. Qed.

Lemma lower_separator sep : Py.lower (separator_str sep) = separator_str sep.
Proof. now destruct sep. Qed.

Lemma lower_local c : local_char c = true -> local_char (Py.lower_char c) = true.
Proof. destruct c as [[] [] [] [] [] [] [] []]; vm_compute; auto. Qed.

Lemma lower_domain c : domain_char c = true -> domain_char (Py.lower_char c) = true.
Proof. destruct c as [[] [] [] [] [] [] [] []]; vm_compute; auto. Qed.

Lemma lower_letter c : is_letter c = true -> is_letter (Py.lower_char c) = true.
Proof. destruct c as [[] [] [] [] [] [] [] []]; vm_compute; auto. Qed.

Lemma lower_at c : Py.lower_char c = "@"%char -> c = "@"%char.
Proof. destruct c as [[] [] [] [] [] [] [] []]; vm_compute; auto; discriminate. Qed.

Lemma forallb_lower (f : ascii -> bool) s :
  (forall c, f c = true -> f (Py.lower_char c) = true) ->
  forallb f s = true -> forallb f (Py.lower s) = true.
Proof.
  intros Hf. induction s as [|x s IH]; simpl; [reflexivity|].
  rewrite !andb_true_iff. intros [Hx Hs]. auto.
Qed.

Lemma local_separator sep : forallb local_char (separator_str sep) = true.
Proof. now destruct sep. Qed.

Lemma address_eq separator email_suffix r :
  email (columns separator email_suffix r)
  = Some (address separator email_suffix r).
Proof.
  unfold address.
  destruct (columns_email separator email_suffix r) as (f & l & _ & _ & ->).
  reflexivity.
Qed.

(** X: the address of every row is in lower case: lower-casing it again
    changes nothing. *)
Theorem address_lower_case (separator : Separator) (email_suffix : str)
    (r : Row) :
  exists e,
    email (columns separator email_suffix r) = Some e /\ Py.lower e = e.
Proof.
  destruct (columns_email separator email_suffix r) as (f & l & _ & _ & E).
  eexists. split; [exact E|].
  now rewrite !lower_app, !lower_idempotent, lower_separator.
Qed.

(** X: when the first and the last name are made of letters, digits and
    [._%+-], and the suffix is [@], a domain of letters, digits, [.] and
    [-], a dot and two or more letters, the synthesized address passes
    the syntax check. *)
Theorem synthesized_address_accepted (separator : Separator)
    (first last dom tld : str) :
  forallb local_char first = true ->
  forallb local_char last = true ->
  1 <= List.length dom -> forallb domain_char dom = true ->
  2 <= List.length tld -> forallb is_letter tld = true ->
  exists e,
    email_of (Some first) (Some last) separator
      ("@"%char :: dom ++ "."%char :: tld) = Some e
    /\ validate_syntax e = true.
Proof.
  intros Hf Hl Hd Hfd Ht Hft. unfold email_of. simpl.
  eexists. split; [reflexivity|].
  apply well_formed_accepted.
  exists (Py.lower first ++ separator_str separator ++ Py.lower last),
         (Py.lower dom), (Py.lower tld).
  split.
  { unfold Py.lower. rewrite <- !app_assoc.
    change (Py.lower_char "@") with "@"%char.
    rewrite map_app. simpl. reflexivity. }
  split.
  { rewrite !length_app. destruct separator; simpl; lia. }
  split.
  { rewrite !forallb_app, local_separator.
    now rewrite !(forallb_lower _ _ lower_local) by assumption. }
  unfold Py.lower at 1 3. rewrite !length_map.
  repeat split; auto.
  - now apply (forallb_lower _ _ lower_domain).
  - now apply (forallb_lower _ _ lower_letter).
Qed.

Lemma synthesized_address_accepted_witness :
  exists e,
    email_of (Some (py "Jane")) (Some (py "Doe")) Underscore
      (py "@acme.co.uk") = Some e
    /\ validate_syntax e = true.
Proof.
  apply (@synthesized_address_accepted Underscore (py "Jane") (py "Doe")
           (py "acme.co") (py "uk")); try reflexivity; simpl; lia.
Defined.

(** ** Further properties of the scraper *)

Lemma scrape_profiles_In pages r :
  In r (scrape_profiles pages) <->
  In (raw r) (List.concat pages) /\ Py.contains "-" (Title r) = true.
Proof.
  rewrite scrape_profiles_eq. unfold drop_duplicates.
  rewrite drop_from_In, kept_In. simpl. tauto.
Qed.

Lemma drop_from_app l1 l2 :
  forall seen,
    drop_from seen (l1 ++ l2)
    = drop_from seen l1 ++ drop_from (rev (drop_from seen l1) ++ seen) l2.
Proof.
  induction l1 as [|x l1 IH]; intros seen; simpl; [reflexivity|].
  destruct (existsb (row_eqb x) seen); [apply IH|].
  simpl. rewrite IH, <- app_assoc. reflexivity.
Qed.

Lemma drop_from_length l : forall seen, List.length (drop_from seen l) <= List.length l.
Proof.
  induction l as [|x l IH]; intros seen; simpl; [lia|].
  destruct (existsb (row_eqb x) seen); simpl.
  - specialize (IH seen). lia.
  - specialize (IH (x :: seen)). lia.
Qed.

Lemma drop_from_id l :
  forall seen,
    NoDup l -> (forall x, In x l -> ~ In x seen) -> drop_from seen l = l.
Proof.
  induction l as [|x l IH]; intros seen N H; simpl; [reflexivity|].
  inversion N as [|? ? Hx N']; subst.
  destruct (existsb (row_eqb x) seen) eqn:E.
  - apply seen_In in E. exfalso. apply (H x); [now left | assumption].
  - f_equal. apply IH; [assumption|].
    intros y Hy [<- | F]; [contradiction|]. apply (H y); [now right | assumption].
Qed.

Lemma kept_length batch : List.length (flat_map keep_list batch) <= List.length batch.
Proof.
  induction batch as [|x l IH]; simpl; [lia|].
  rewrite length_app.
  destruct (keep_list_cases x) as [-> | (y & -> & _)]; simpl; lia.
Qed.

Lemma scrape_profiles_app pages more :
  exists extra,
    scrape_profiles (pages ++ more) = scrape_profiles pages ++ extra
    /\ forall r, In r extra <->
                 In r (scrape_profiles more) /\ ~ In r (scrape_profiles pages).
Proof.
  rewrite !scrape_profiles_eq. unfold drop_duplicates.
  rewrite concat_app, flat_map_app, drop_from_app.
  eexists. split; [reflexivity|].
  intros r. rewrite !drop_from_In, app_nil_r, <- in_rev, drop_from_In.
  simpl. tauto.
Qed.

(** X: fetching more pages keeps the rows of the earlier pages as they
    are, in place and in order: the new frame is the old one followed by
    the rows of the further pages that the earlier pages did not have. *)
Theorem more_pages_extend (pages more : list (list Result)) :
  exists extra,
    scrape_profiles (pages ++ more) = scrape_profiles pages ++ extra
    /\ forall r, In r extra <->
                 In r (scrape_profiles more) /\ ~ In r (scrape_profiles pages).
Proof. apply scrape_profiles_app. Qed.

(** X: results that come again add nothing: scraping the same pages
    twice over gives the frame of scraping them once, and dropping
    duplicates from a scraped frame leaves it unchanged. *)
Theorem repeated_pages_add_nothing (pages : list (list Result)) :
  scrape_profiles (pages ++ pages) = scrape_profiles pages
  /\ drop_duplicates (scrape_profiles pages) = scrape_profiles pages.
Proof.
  split.
  - destruct (scrape_profiles_app pages pages) as (extra & -> & H).
    destruct extra as [|x extra]; [now rewrite app_nil_r|].
    exfalso. destruct (proj1 (H x)) as [H1 H2]; [now left | contradiction].
  - unfold drop_duplicates. apply drop_from_id; [|auto].
    rewrite scrape_profiles_eq. apply drop_from_NoDup.
Qed.

(** X: the frame has at most as many rows as there are results, and a
    row only for a result whose title is a string with a hyphen. *)
Theorem scrape_profiles_bound (pages : list (list Result)) :
  List.length (scrape_profiles pages) <= List.length (List.concat pages)
  /\ forall r, In r (scrape_profiles pages) ->
               In (raw r) (List.concat pages)
               /\ Py.contains "-" (Title r) = true.
Proof.
  split.
  - rewrite scrape_profiles_eq. unfold drop_duplicates.
    etransitivity; [apply drop_from_length | apply kept_length].
  - intros r. apply scrape_profiles_In.
Qed.

(** ** The search requests *)

(** X: the requests of [pages] pages ask for the results of rank 0 up to
    [10 * pages - 1], each rank by exactly one request. *)
Theorem requests_tile (company location : str) (key : option str)
    (pages k : nat) :
  (k < 10 * pages <->
   exists p, In p (Serp.requests company location key pages) /\ Serp.asks p k)
  /\ forall p1 p2,
       In p1 (Serp.requests company location key pages) ->
       In p2 (Serp.requests company location key pages) ->
       Serp.asks p1 k -> Serp.asks p2 k -> p1 = p2.
Proof.
  unfold Serp.requests, Serp.asks. split.
  - split.
    + intros H. exists (Serp.params company location key (k / 10)). split.
      * apply in_map, in_seq. split; [lia|].
        apply Nat.Div0.div_lt_upper_bound. lia.
      * cbn [Serp.params Serp.start Serp.num].
        pose proof (Nat.div_mod_eq k 10) as E.
        pose proof (Nat.mod_upper_bound k 10). lia.
    + intros (p & Hp & Hk). apply in_map_iff in Hp as (page & <- & Hp).
      apply in_seq in Hp. simpl in Hk. lia.
  - intros p1 p2 H1 H2 K1 K2.
    apply in_map_iff in H1 as (a & <- & _), H2 as (b & <- & _).
    simpl in K1, K2. assert (a = b) by lia. now subst.
Qed.

(** ** The queries and the verdicts of a run *)

Lemma address_form separator email_suffix r :
  let full := Py.strip (before_first "-" (Title r)) in
  address separator email_suffix r
  = (Py.lower (before_first " " full) ++ separator_str separator
     ++ Py.lower (last (Py.split " " full) []))
    ++ Py.lower email_suffix.
Proof.
  intros full. unfold address, columns. simpl.
  rewrite full_name_of_eq. fold full.
  rewrite first_name_of_eq, last_name_of_eq. unfold email_of. simpl.
  now rewrite <- !app_assoc.
Qed.

Lemma lower_In_at s : In "@"%char (Py.lower s) -> In "@"%char s.
Proof.
  unfold Py.lower. rewrite in_map_iff. intros (c & E & Hc).
  apply lower_at in E. now subst.
Qed.

Lemma address_at separator email_suffix r :
  In "@"%char (address separator email_suffix r) ->
  In "@"%char (Title r) \/ In "@"%char email_suffix.
Proof.
  rewrite address_form. cbv zeta. rewrite !in_app_iff.
  intros [[H | [H | H]] | H].
  - left. apply lower_In_at, before_first_In, strip_In, before_first_In in H.
    assumption.
  - destruct separator; simpl in H; destruct H as [H | []]; discriminate.
  - left. apply lower_In_at in H.
    apply (split_piece_chars " " _ _ "@"%char
             (last_In [] (split_not_nil " " _))) in H.
    now apply strip_In, before_first_In in H.
  - right. now apply lower_In_at.
Qed.

Lemma address_domain separator d r :
  validate_syntax (address separator ("@"%char :: d) r) = true ->
  after_first "@" (address separator ("@"%char :: d) r) = Py.lower d.
Proof.
  intros H. apply valid_domain in H as (Hc & _ & _).
  rewrite address_form in *. cbv zeta in *.
  change (Py.lower ("@"%char :: d)) with ("@"%char :: Py.lower d) in *.
  rewrite count_app in Hc.
  change (Py.count "@" ("@"%char :: Py.lower d))
    with (S (Py.count "@" (Py.lower d))) in Hc.
  apply first_unique. apply count_none. lia.
Qed.

Section Run.

Variable World : Type.
Variable resolve : str -> World -> exc (list MX) * World.

Lemma queries_run_queries ds :
  forall st : State World,
    queries (run_queries resolve ds st) = queries st ++ ds.
Proof.
  unfold run_queries.
  induction ds as [|d ds IH]; intros st; simpl; [now rewrite app_nil_r|].
  rewrite IH. simpl. now rewrite <- app_assoc.
Qed.

Lemma mapM_validate_log es :
  forall st,
    exists results,
      mapM (apply_validate_email resolve) (map Some es) st
      = (Ok results,
         run_queries resolve
           (map (after_first "@") (filter validate_syntax es)) st)
      /\ Forall2 verdict_for es results.
Proof.
  induction es as [|e es IH]; intros st; cbn [map mapM filter].
  - exists []. split; [reflexivity | constructor].
  - cbn [apply_validate_email]. unfold bind at 1.
    destruct (validate_email_step resolve e st) as (v & -> & Hv).
    unfold bind at 1.
    destruct (IH (if validate_syntax e
                  then queried resolve (after_first "@" e) st else st))
      as (results & -> & HF).
    exists (v :: results). split; [|now constructor].
    unfold ret. destruct (validate_syntax e); reflexivity.
Qed.

Lemma main_action_run separator email_suffix pages st rows st' :
  main_action resolve separator email_suffix pages st = (Ok rows, st') ->
  let df := scrape_profiles pages in
  let es := map (address separator email_suffix) df in
  exists results,
    df <> []
    /\ rows = map with_verdict
                (combine (map (columns separator email_suffix) df) results)
    /\ st' = run_queries resolve
               (map (after_first "@") (filter validate_syntax es)) st
    /\ Forall2 verdict_for es results.
Proof.
  intros H df es. unfold main_action in H. fold df in H.
  assert (Hne : df <> []).
  { intros E. rewrite E in H. discriminate. }
  assert (H' : bind (mapM (apply_validate_email resolve)
                       (map email (map (columns separator email_suffix) df)))
                 (fun validation_results =>
                    ret (map with_verdict
                           (combine (map (columns separator email_suffix) df)
                              validation_results))) st = (Ok rows, st')).
  { destruct df; [contradiction | exact H]. }
  clear H.
  assert (Em : map email (map (columns separator email_suffix) df) = map Some es).
  { unfold es. rewrite !map_map. apply map_ext. intros r. apply address_eq. }
  rewrite Em in H'. unfold bind in H'.
  destruct (mapM_validate_log es st) as (results & E & HF).
  rewrite E in H'. unfold ret in H'. injection H' as <- <-.
  exists results. auto.
Qed.

Lemma rows_verdicts separator email_suffix df :
  forall results,
    Forall2 verdict_for (map (address separator email_suffix) df) results ->
    forall row,
      In row (map with_verdict
                (combine (map (columns separator email_suffix) df) results)) ->
      exists r,
        In r df /\ cols row = columns separator email_suffix r
        /\ verdict_for (address separator email_suffix r)
             (validation_status row, confidence row).
Proof.
  induction df as [|r df IH]; intros results HF row Hrow; simpl in *.
  - contradiction.
  - inversion HF as [|e v es vs Hv HF']; subst. simpl in Hrow.
    destruct Hrow as [<- | Hrow].
    + exists r. simpl. destruct v. auto.
    + destruct (IH vs HF' row Hrow) as (r' & Hr' & H1 & H2).
      exists r'. auto.
Qed.

Lemma rows_valid_count separator email_suffix df :
  forall results,
    Forall2 verdict_for (map (address separator email_suffix) df) results ->
    List.length (filter validate_syntax (map (address separator email_suffix) df))
    = List.length
        (filter (fun row => negb (is_invalid (validation_status row)))
           (map with_verdict
              (combine (map (columns separator email_suffix) df) results))).
Proof.
  induction df as [|r df IH]; intros results HF; simpl in *; [reflexivity|].
  inversion HF as [|e v es vs Hv HF']; subst. simpl.
  destruct Hv as [Hv _]. rewrite Hv, negb_involutive.
  destruct (validate_syntax (address separator email_suffix r)); simpl;
    now rewrite (IH vs HF').
Qed.

End Run.

Lemma filter_none {A} (f : A -> bool) l :
  (forall x, In x l -> f x = false) -> filter f l = [].
Proof.
  induction l as [|x l IH]; intros H; simpl; [reflexivity|].
  rewrite (H x) by now left. apply IH. intros y Hy. apply H. now right.
Qed.

Lemma acme_run :
  main_action acme_dns Dot (py "@acme.com") [[jane; joe]] st0
  = (Ok acme_rows, acme_state).
Proof. reflexivity. Qed.

Lemma no_at_run :
  main_action acme_dns Dot (py "acme.com") [[jane; joe]] st0
  = (Ok no_at_rows, st0).
Proof. reflexivity. Qed.

Section Table.

Variable World : Type.
Variable resolve : str -> World -> exc (list MX) * World.

(** X: in the table of a run every row has an address; its status is
    InvalidSyntax exactly when the address fails the syntax check, and
    its confidence is the one of its status. *)
Theorem table_verdicts (separator : Separator) (email_suffix : str)
    (pages : list (list Result)) (st st' : State World)
    (rows : list ResultRow) :
  main_action resolve separator email_suffix pages st = (Ok rows, st') ->
  forall row, In row rows ->
    exists e,
      email (cols row) = Some e
      /\ (validation_status row = InvalidSyntax <-> validate_syntax e = false)
      /\ confidence row = confidence_of (validation_status row).
Proof.
  intros H row Hrow.
  apply main_action_run in H as (results & _ & -> & _ & HF).
  destruct (rows_verdicts separator email_suffix _ HF row Hrow)
    as (r & _ & Hc & Hi & Hconf).
  exists (address separator email_suffix r). simpl in Hi, Hconf.
  split; [rewrite Hc; apply address_eq|]. split; [|assumption].
  destruct (validation_status row),
    (validate_syntax (address separator email_suffix r));
    simpl in Hi; split; intros E; try discriminate; reflexivity.
Qed.

(** X: a run makes one MX lookup for each row whose status is not
    InvalidSyntax and no other: the log of queries is the earlier log
    followed by that many domains. *)
Theorem lookups_counted (separator : Separator) (email_suffix : str)
    (pages : list (list Result)) (st st' : State World)
    (rows : list ResultRow) :
  main_action resolve separator email_suffix pages st = (Ok rows, st') ->
  exists qs,
    queries st' = queries st ++ qs
    /\ List.length qs
       = List.length
           (filter (fun row => negb (is_invalid (validation_status row))) rows).
Proof.
  intros H. apply main_action_run in H as (results & _ & -> & -> & HF).
  eexists. split; [apply queries_run_queries|].
  rewrite length_map. now apply rows_valid_count.
Qed.

(** X: when the suffix starts with [@], every MX lookup of a run is for
    the rest of the suffix in lower case, whatever the titles are. *)
Theorem lookups_for_suffix (separator : Separator) (d : str)
    (pages : list (list Result)) (st st' : State World)
    (rows : list ResultRow) :
  main_action resolve separator ("@"%char :: d) pages st = (Ok rows, st') ->
  forall q, In q (queries st') -> In q (queries st) \/ q = Py.lower d.
Proof.
  intros H q. apply main_action_run in H as (results & _ & _ & -> & _).
  rewrite queries_run_queries, in_app_iff.
  intros [Hq | Hq]; [now left | right].
  apply in_map_iff in Hq as (e & <- & He).
  apply filter_In in He as [He Hv].
  apply in_map_iff in He as (r & <- & _).
  now apply address_domain.
Qed.

(** X: when neither the suffix nor any title has an [@], every row of
    the table is (InvalidSyntax, Low) and the run makes no MX lookup. *)
Theorem no_at_all_invalid (separator : Separator) (email_suffix : str)
    (pages : list (list Result)) (st st' : State World)
    (rows : list ResultRow) :
  ~ In "@"%char email_suffix ->
  (forall r t, In r (List.concat pages) -> title r = Some t ->
               ~ In "@"%char t) ->
  main_action resolve separator email_suffix pages st = (Ok rows, st') ->
  st' = st
  /\ forall row, In row rows ->
       validation_status row = InvalidSyntax /\ confidence row = Low.
Proof.
  intros Hs Ht H.
  apply main_action_run in H as (results & _ & -> & -> & HF).
  assert (Hinv : forall r, In r (scrape_profiles pages) ->
                   validate_syntax (address separator email_suffix r) = false).
  { intros r Hr. apply no_at_rejected. intros F.
    apply address_at in F as [F | F]; [|contradiction].
    apply scrape_profiles_In in Hr as [Hr _].
    now apply (Ht (raw r) (Title r) Hr eq_refl). }
  split.
  - rewrite filter_none; [reflexivity|].
    intros e He. apply in_map_iff in He as (r & <- & Hr). auto.
  - intros row Hrow.
    destruct (rows_verdicts separator email_suffix _ HF row Hrow)
      as (r & Hr & _ & Hi & Hconf).
    simpl in Hi, Hconf. rewrite (Hinv r Hr) in Hi.
    destruct (validation_status row); try discriminate. auto.
Qed.

(** X: a run that gives a table gives one with at least one row, and
    with one row for each row of the scraped frame. *)
Theorem table_size (separator : Separator) (email_suffix : str)
    (pages : list (list Result)) (st st' : State World)
    (rows : list ResultRow) :
  main_action resolve separator email_suffix pages st = (Ok rows, st') ->
  1 <= List.length rows
  /\ List.length rows = List.length (scrape_profiles pages).
Proof.
  intros H.
  destruct (main_action_rows resolve separator email_suffix pages st)
    as [[_ E] | (Hne & rows' & st'' & E & _ & Hk)];
    rewrite E in H; [discriminate|].
  injection H as <- <-.
  assert (L : List.length rows' = List.length (scrape_profiles pages))
    by (rewrite <- Hk; now rewrite length_map).
  split; [|assumption]. rewrite L.
  destruct (scrape_profiles pages); [contradiction | simpl; lia].
Qed.

(** X: the button handler ends in one of six ways, and the only
    exceptions that leave it are the stop, an exception of the search and
    an exception of the workbook write: the column and validation code
    raises nothing.  An error message and a stop when an input is
    missing; an error message and a stop when the key is not set; the
    exception of the search; a warning and a stop when no result has a
    hyphen in its title; in these four the resolver is not called.
    Otherwise the table is computed, with at least one row, and either
    the workbook write raises and nothing is shown, or the page shows the
    download, the success message with the company name, the number of
    rows and the six columns of each row. *)
Theorem button_handler_outcomes
    (write_workbook : str -> str -> list ResultRow -> exc str)
    (f : Form.inputs) (fetched : exc (list (list Result)))
    (st : State World) :
  let out := button_handler resolve write_workbook f fetched st in
  (Form.all_inputs f = false
   /\ out = ([st_error (py "All inputs are required")],
             (Exn StopException, st)))
  \/ (Form.all_inputs f = true /\ Form.key_set f = false
      /\ out = ([st_error (py "SERPAPI_KEY not set")],
                (Exn StopException, st)))
  \/ (Form.all_inputs f = true /\ Form.key_set f = true
      /\ exists e, fetched = Exn e /\ out = ([], (Exn e, st)))
  \/ (Form.all_inputs f = true /\ Form.key_set f = true
      /\ exists pages,
           fetched = Ok pages /\ scrape_profiles pages = []
           /\ out = ([st_warning (py "No profiles found")],
                     (Exn StopException, st)))
  \/ (Form.all_inputs f = true /\ Form.key_set f = true
      /\ exists pages rows st' upload,
           fetched = Ok pages
           /\ Form.uploaded_excel f = Some upload
           /\ main_action resolve (Form.separator f) (Form.email_suffix f)
                pages st = (Ok rows, st')
           /\ rows <> []
           /\ ((exists e,
                  write_workbook upload (Form.company_name f) rows = Exn e
                  /\ out = ([], (Exn e, st')))
               \/ (exists data,
                     write_workbook upload (Form.company_name f) rows = Ok data
                     /\ out
                        = ([st_download_button data (py "companies.xlsx")
                              (py "application/vnd.openxmlformats-officedocument.spreadsheetml.sheet");
                            st_success (py "Saved validated emails to sheet: "
                                        ++ Form.company_name f);
                            st_metric (py "Emails Generated") (List.length rows);
                            st_dataframe (map shown rows)],
                           (Ok tt, st'))))).
Proof.
  intros out. subst out. unfold button_handler.
  destruct (Form.all_inputs f) eqn:Ha; [|left; auto].
  destruct (Form.key_set f) eqn:Hk; [|right; left; auto].
  right; right. simpl.
  destruct fetched as [pages | e].
  2: { left. split; [reflexivity|]. split; [reflexivity|]. exists e. auto. }
  right.
  destruct (main_action_rows resolve (Form.separator f) (Form.email_suffix f)
              pages st)
    as [[E Hm] | (Hne & rows & st' & Hm & _ & Hs)].
  - left. split; [reflexivity|]. split; [reflexivity|].
    exists pages. split; [reflexivity|]. split; [exact E|]. now rewrite E.
  - right. split; [reflexivity|]. split; [reflexivity|].
    assert (Hu : exists upload, Form.uploaded_excel f = Some upload).
    { unfold Form.all_inputs in Ha.
      destruct (Form.uploaded_excel f) as [u|]; [now exists u|].
      now rewrite andb_false_r in Ha. }
    destruct Hu as (upload & Hu).
    exists pages, rows, st', upload.
    split; [reflexivity|]. split; [assumption|]. split; [assumption|].
    split.
    { intros ->. simpl in Hs. now apply Hne. }
    rewrite Hm, Hu.
    destruct (scrape_profiles pages) as [|r df]; [contradiction|].
    destruct (write_workbook upload (Form.company_name f) rows) as [data | e].
    + right. exists data. auto.
    + left. exists e. auto.
Qed.

End Table.

Lemma table_verdicts_witness :
  Forall
    (fun row =>
       exists e,
         email (cols row) = Some e
         /\ (validation_status row = InvalidSyntax <-> validate_syntax e = false)
         /\ confidence row = confidence_of (validation_status row))
    acme_rows.
Proof.
  apply Forall_forall.
  exact (@table_verdicts unit acme_dns Dot (py "@acme.com") [[jane; joe]]
           st0 acme_state acme_rows acme_run).
Defined.

Lemma lookups_counted_witness :
  exists qs,
    queries acme_state = queries st0 ++ qs
    /\ List.length qs
       = List.length
           (filter (fun row => negb (is_invalid (validation_status row)))
              acme_rows).
Proof.
  exact (@lookups_counted unit acme_dns Dot (py "@acme.com") [[jane; joe]]
           st0 acme_state acme_rows acme_run).
Defined.

Lemma lookups_for_suffix_witness :
  Forall (fun q => In q (queries st0) \/ q = Py.lower (py "acme.com"))
    (queries acme_state).
Proof.
  apply Forall_forall.
  exact (@lookups_for_suffix unit acme_dns Dot (py "acme.com") [[jane; joe]]
           st0 acme_state acme_rows acme_run).
Defined.

Lemma no_at_all_invalid_witness :
  st0 = st0
  /\ forall row, In row no_at_rows ->
       validation_status row = InvalidSyntax /\ confidence row = Low.
Proof.
  apply (@no_at_all_invalid unit acme_dns Dot (py "acme.com") [[jane; joe]]
           st0 st0 no_at_rows).
  - vm_compute. intuition discriminate.
  - intros r t Hr Ht. simpl in Hr.
    destruct Hr as [<- | [<- | []]]; simpl in Ht; injection Ht as <-;
      vm_compute; intuition discriminate.
  - exact no_at_run.
Defined.

Lemma table_size_witness :
  1 <= List.length acme_rows
  /\ List.length acme_rows
     = List.length (scrape_profiles [[jane; joe]]).
Proof.
  exact (@table_size unit acme_dns Dot (py "@acme.com") [[jane; joe]]
           st0 acme_state acme_rows acme_run).
Defined.
